(** * Prairie Genomics Suite: expression-based differential analysis

    A shallow embedding of the analysis core of the two Streamlit
    applications, [prairie_genomics_web_app.py] (the "web app" variant) and
    [prairie_genomics_enhanced.py] (the "enhanced" variant):

    - gene resolution ([find_target_gene], head of [create_expression_groups]),
    - sample stratification ([group_samples], [create_expression_groups]),
    - the per-gene two-sample test ([run_differential_expression],
      [run_simple_differential_expression]),
    - multiple-testing correction, significance labels and the final sort
      (body of [analysis_section]).

    Conventions.  Expression values, thresholds and p-values are floats in
    the source; they are modelled as exact rationals ([Q]), without NaN and
    without rounding.  Values that go through [np.log2] are reals ([R]).
    A pandas row (Series) is a list of (label, value) pairs in column order; a
    dict is an association list in insertion order, which is the order
    Python iterates it in.  Identifiers are ASCII strings.  A raised
    exception is the left summand of a result. *)

From Stdlib Require Import List Bool Arith Lia String Ascii.
From Stdlib Require Import ZArith QArith Qminmax Qround Qreals.
From Stdlib Require Import Permutation Sorted.
From Stdlib Require Import Reals Psatz.
Import ListNotations.

(** ** Exceptions and results *)

Inductive exn : Type :=
| ValueError (msg : string)
| KeyError (key : string)
| NameError (name : string)
| LibraryError.

Definition result (A : Type) : Type := (exn + A)%type.

Definition bind {A B : Type} (r : result A) (k : A -> result B) : result B :=
  match r with
  | inl e => inl e
  | inr a => k a
  end.

Notation "x <- r ;; k" := (bind r (fun x => k))
  (at level 61, r at next level, right associativity).

Fixpoint mapM {A B : Type} (f : A -> result B) (l : list A) : result (list B) :=
  match l with
  | [] => inr []
  | a :: t => b <- f a ;; bs <- mapM f t ;; inr (b :: bs)
  end.

(** ** Strings: [str.upper] and the [in] operator *)

Module Str.

Local Open Scope string_scope.

(** [c.upper()] on an ASCII character. *)
Definition upper_ascii (c : ascii) : ascii :=
  let n := nat_of_ascii c in
  if (97 <=? n)%nat && (n <=? 122)%nat then ascii_of_nat (n - 32) else c.

(** [s.upper()] *)
Fixpoint upper (s : string) : string :=
  match s with
  | EmptyString => EmptyString
  | String c t => String (upper_ascii c) (upper t)
  end.

(** [needle in hay] on two strings: [needle] occurs in [hay] as a
    contiguous substring. *)
Fixpoint contains (needle hay : string) : bool :=
  String.prefix needle hay ||
  match hay with
  | EmptyString => false
  | String _ t => contains needle t
  end.

(** [s.split('.')[0]]: the part of [s] before the first dot. *)
Fixpoint before_dot (s : string) : string :=
  match s with
  | EmptyString => EmptyString
  | String c t => if Ascii.eqb c "."%char then EmptyString else String c (before_dot t)
  end.

End Str.

(** ** Gene resolution *)

Module Resolver.

Local Open Scope string_scope.

(** [st.session_state.gene_symbols]: identifier -> display symbol, in
    insertion order. *)
Definition GeneSymbolMap := list (string * string).

(** The inner loop of both variants:
    [for expr_gene_id in index: if gene_id in expr_gene_id: return expr_gene_id] *)
Fixpoint first_containing (gene_id : string) (index : list string) : option string :=
  match index with
  | [] => None
  | expr_gene_id :: rest =>
      if Str.contains gene_id expr_gene_id then Some expr_gene_id
      else first_containing gene_id rest
  end.

(** The first loop of [find_target_gene]: over [gene_symbols.items()];
    an entry whose symbol matches but whose identifier occurs in no row
    key lets the loop go on to the next entry. *)
Fixpoint by_symbol (gene_symbols : GeneSymbolMap) (index : list string)
    (target_gene : string) : option string :=
  match gene_symbols with
  | [] => None
  | (gene_id, symbol) :: rest =>
      if String.eqb (Str.upper symbol) (Str.upper target_gene) then
        match first_containing gene_id index with
        | Some expr_gene_id => Some expr_gene_id
        | None => by_symbol rest index target_gene
        end
      else by_symbol rest index target_gene
  end.

(** The second loop of [find_target_gene]:
    [if target_gene.upper() in gene_id.upper(): return gene_id] *)
Fixpoint by_partial_match (index : list string) (target_gene : string) : option string :=
  match index with
  | [] => None
  | gene_id :: rest =>
      if Str.contains (Str.upper target_gene) (Str.upper gene_id) then Some gene_id
      else by_partial_match rest target_gene
  end.

(** [PrairieGenomicsApp.find_target_gene] of the web app; [None] is the
    [return None] at its end.  The guard [if gene_symbols:] skips the
    first loop for an empty dict, on which the loop does nothing. *)
Definition find_target_gene (gene_symbols : GeneSymbolMap) (index : list string)
    (target_gene : string) : option string :=
  match (match gene_symbols with
         | [] => None
         | _ :: _ => by_symbol gene_symbols index target_gene
         end) with
  | Some expr_gene_id => Some expr_gene_id
  | None => by_partial_match index target_gene
  end.

(** The head of [create_expression_groups] of the enhanced variant.  It
    keeps the hit in a local [gene_id], initially [None], and leaves the
    outer loop on [if gene_id: break], a truth test: an empty-string row
    key does not stop the loop.  The partial match runs on
    [if gene_id is None]. *)
Fixpoint scan_symbols (gene_symbols : GeneSymbolMap) (index : list string)
    (target_gene : string) (gene_id : option string) : option string :=
  match gene_symbols with
  | [] => gene_id
  | (gid, symbol) :: rest =>
      if String.eqb (Str.upper symbol) (Str.upper target_gene) then
        let gene_id' :=
          match first_containing gid index with
          | Some expr_id => Some expr_id
          | None => gene_id
          end in
        match gene_id' with
        | Some (String _ _) => gene_id'
        | _ => scan_symbols rest index target_gene gene_id'
        end
      else scan_symbols rest index target_gene gene_id
  end.

Definition locate_gene (gene_symbols : GeneSymbolMap) (index : list string)
    (target_gene : string) : result string :=
  let gene_id := scan_symbols gene_symbols index target_gene None in
  let gene_id :=
    match gene_id with
    | Some g => Some g
    | None => by_partial_match index target_gene
    end in
  match gene_id with
  | Some g => inr g
  | None => inl (ValueError ("Gene " ++ target_gene ++ " not found in expression data"))
  end.

(** *** The resolution order in the spec's words

    Step 1: the pairs (map entry, row key), entries in map order and keys in
    matrix order, such that the entry's symbol equals the target up to
    letter case and the entry's identifier occurs in the key; the first
    such pair gives the key.  Step 2: the first row key that contains the
    target up to letter case.  Failure when both are empty. *)

Definition symbol_hits (gene_symbols : GeneSymbolMap) (index : list string)
    (target_gene : string) : list string :=
  flat_map
    (fun entry : string * string =>
       if String.eqb (Str.upper (snd entry)) (Str.upper target_gene)
       then filter (Str.contains (fst entry)) index
       else [])
    gene_symbols.

Definition partial_hits (index : list string) (target_gene : string) : list string :=
  filter (fun key => Str.contains (Str.upper target_gene) (Str.upper key)) index.

Definition resolve_spec (gene_symbols : GeneSymbolMap) (index : list string)
    (target_gene : string) : option string :=
  match symbol_hits gene_symbols index target_gene with
  | key :: _ => Some key
  | [] => hd_error (partial_hits index target_gene)
  end.

End Resolver.

(** ** The part of pandas and NumPy the analysis relies on *)

Module Pandas.

Local Open Scope Q_scope.

(** A row of the expression matrix, [expression_data.loc[gene_id]]:
    (sample identifier, value) in column order. *)
Definition Series := list (string * Q).

(** The expression matrix: (row key, row) in index order. *)
Definition DataFrame := list (string * Series).

Definition index {A : Type} (df : list (string * A)) : list string := map fst df.

Definition values (s : Series) : list Q := map snd s.

(** [expression_data.loc[gene_id]]: the row under a key, [KeyError] when
    the key is absent. *)
Fixpoint loc (df : DataFrame) (gene_id : string) : result Series :=
  match df with
  | [] => inl (KeyError gene_id)
  | (key, row) :: rest => if String.eqb key gene_id then inr row else loc rest gene_id
  end.

(** One cell of a row by column label. *)
Fixpoint at_label (row : Series) (sample : string) : result Q :=
  match row with
  | [] => inl (KeyError sample)
  | (label, v) :: rest => if String.eqb label sample then inr v else at_label rest sample
  end.

(** [expression_data.loc[gene_id, samples]]: the cells of a row under the
    given column labels, in the order of the labels. *)
Definition loc_samples (row : Series) (samples : list string) : result (list Q) :=
  mapM (at_label row) samples.

(** Ascending sort of a list of values. *)
Fixpoint insert_sorted (x : Q) (l : list Q) : list Q :=
  match l with
  | [] => [x]
  | y :: t => if Qle_bool x y then x :: l else y :: insert_sorted x t
  end.

Definition sort (l : list Q) : list Q := fold_right insert_sorted [] l.

Definition of_nat (n : nat) : Q := inject_Z (Z.of_nat n).

(** [Series.median()]: the middle value of the sorted row, or the mean of
    the two middle values; [None] stands for the NaN of an empty row. *)
Definition median (vs : list Q) : option Q :=
  let s := sort vs in
  let n := List.length s in
  if (n =? 0)%nat then None
  else if Nat.odd n then Some (nth (n / 2) s 0)
  else Some ((nth (n / 2 - 1) s 0 + nth (n / 2) s 0) / 2).

(** [Series.quantile(q)] with the default linear interpolation: position
    [(n - 1) * q] in the sorted row, interpolated between its two
    neighbours. *)
Definition quantile (vs : list Q) (q : Q) : option Q :=
  let s := sort vs in
  let n := List.length s in
  if (n =? 0)%nat then None
  else
    let pos := of_nat (n - 1) * q in
    let lo := Z.to_nat (Qfloor pos) in
    let hi := Nat.min (lo + 1) (n - 1) in
    let frac := pos - of_nat lo in
    let a := nth lo s 0 in
    let b := nth hi s 0 in
    Some (a + (b - a) * frac).

(** Comparisons of a value with a threshold that may be NaN: every
    comparison with NaN is false. *)
Definition at_least (v : Q) (threshold : option Q) : bool :=
  match threshold with
  | Some t => Qle_bool t v
  | None => false
  end.

Definition at_most (v : Q) (threshold : option Q) : bool :=
  match threshold with
  | Some t => Qle_bool v t
  | None => false
  end.

Definition below (v : Q) (threshold : option Q) : bool :=
  match threshold with
  | Some t => negb (Qle_bool t v)
  | None => false
  end.

(** [row[mask].index]: the labels of the cells that satisfy a test. *)
Definition labels_where (test : Q -> bool) (row : Series) : list string :=
  map fst (filter (fun cell => test (snd cell)) row).

(** [Series.unique()]: the distinct values in order of first appearance. *)
Fixpoint unique (l : list string) : list string :=
  match l with
  | [] => []
  | x :: t => x :: filter (fun y => negb (String.eqb x y)) (unique t)
  end.

End Pandas.

(** ** Sample stratification *)

Module Stratify.

Import Pandas.
Local Open Scope string_scope.

(** Names a function body can read without binding them itself are looked
    up among the module's globals; an unbound name raises [NameError]. *)
Definition Namespace := list (string * Q).

Fixpoint load_global (globals : Namespace) (name : string) : result Q :=
  match globals with
  | [] => inl (NameError name)
  | (n, v) :: rest => if String.eqb n name then inr v else load_global rest name
  end.

(** The numeric globals of [prairie_genomics_web_app.py]: the module
    assigns none.  [high_threshold] and [low_threshold] are assigned only
    inside [analysis_section], as locals of that method. *)
Definition module_globals : Namespace := [].

(** [PrairieGenomicsApp.group_samples(self, target_gene_id, method)] of
    the web app.  Its parameters are the row key and the method; the last
    branch reads [high_threshold] and [low_threshold], which are neither
    parameters nor locals of this method. *)
Definition group_samples (globals : Namespace) (expression_data : DataFrame)
    (target_gene_id : string) (method : string) : result (list string * list string) :=
  target_expression <- loc expression_data target_gene_id ;;
  if String.eqb method "Median split" then
    let threshold := median (values target_expression) in
    let high_samples := labels_where (fun v => at_least v threshold) target_expression in
    let low_samples := labels_where (fun v => below v threshold) target_expression in
    inr (high_samples, low_samples)
  else if String.eqb method "Quartile split (top 25% vs bottom 25%)" then
    let q75 := quantile (values target_expression) (75 # 100) in
    let q25 := quantile (values target_expression) (25 # 100) in
    let high_samples := labels_where (fun v => at_least v q75) target_expression in
    let low_samples := labels_where (fun v => at_most v q25) target_expression in
    inr (high_samples, low_samples)
  else
    high_threshold <- load_global globals "high_threshold" ;;
    let high_samples := labels_where (fun v => at_least v (Some high_threshold)) target_expression in
    low_threshold <- load_global globals "low_threshold" ;;
    let low_samples := labels_where (fun v => at_most v (Some low_threshold)) target_expression in
    inr (high_samples, low_samples).

(** The design matrix of the enhanced variant: (sample_id, condition) in
    column order. *)
Definition Design := list (string * string).

(** The loop shared by the quartile and tertile branches of
    [create_expression_groups]. *)
Definition three_way (upper lower : option Q) (val : Q) : string :=
  if at_least val upper then "High"
  else if at_most val lower then "Low"
  else "Medium".

(** The labelling part of [create_expression_groups]; a method outside
    the three of the select box leaves the local [groups] unbound. *)
Definition label_samples (gene_expr : Series) (method : string) : result (list string) :=
  if String.eqb method "Median split" then
    let threshold := median (values gene_expr) in
    inr (map (fun v => if at_least v threshold then "High" else "Low") (values gene_expr))
  else if String.eqb method "Quartile split" then
    let q75 := quantile (values gene_expr) (75 # 100) in
    let q25 := quantile (values gene_expr) (25 # 100) in
    inr (map (three_way q75 q25) (values gene_expr))
  else if String.eqb method "Tertile split" then
    let q67 := quantile (values gene_expr) (67 # 100) in
    let q33 := quantile (values gene_expr) (33 # 100) in
    inr (map (three_way q67 q33) (values gene_expr))
  else inl (NameError "groups").

(** [create_expression_groups(self, expression_data, target_gene, method)]
    of the enhanced variant. *)
Definition create_expression_groups (gene_symbols : Resolver.GeneSymbolMap)
    (expression_data : DataFrame) (target_gene : string) (method : string) : result Design :=
  gene_id <- Resolver.locate_gene gene_symbols (index expression_data) target_gene ;;
  gene_expr <- loc expression_data gene_id ;;
  groups <- label_samples gene_expr method ;;
  inr (combine (map fst gene_expr) groups).

(** The samples of a design that carry a label:
    [design_matrix[design_matrix['condition'] == label].index] *)
Definition samples_of (design_matrix : Design) (label : string) : list string :=
  map fst (filter (fun r => String.eqb (snd r) label) design_matrix).

End Stratify.

(** ** Multiple-testing correction *)

Module Correction.

Import Pandas.
Local Open Scope Q_scope.

(** The correction is [scipy.stats.false_discovery_control] in the web
    app and [statsmodels.stats.multitest.multipletests(..., method='fdr_bh')]
    in the enhanced variant: library code that the repository only calls.
    It is modelled from section 4.4 of the spec, step by step. *)

(** The p-values paired with their input positions. *)
Definition enumerate (ps : list Q) : list (nat * Q) :=
  combine (seq 0 (List.length ps)) ps.

Fixpoint insert_ranked (x : nat * Q) (l : list (nat * Q)) : list (nat * Q) :=
  match l with
  | [] => [x]
  | y :: t => if Qle_bool (snd x) (snd y) then x :: l else y :: insert_ranked x t
  end.

(** The positions and p-values in ascending order of p-value. *)
Definition argsort (ps : list Q) : list (nat * Q) :=
  fold_right insert_ranked [] (enumerate ps).

(** [p_i * m / i] along the sorted list, [i] the rank of its head. *)
Fixpoint scale (m : Q) (i : nat) (l : list (nat * Q)) : list (nat * Q) :=
  match l with
  | [] => []
  | (j, p) :: t => (j, p * m / of_nat i) :: scale m (S i) t
  end.

(** Running minimum from the last element towards the first. *)
Fixpoint running_min_from_end (l : list (nat * Q)) : list (nat * Q) :=
  match l with
  | [] => []
  | (j, v) :: t =>
      match running_min_from_end t with
      | [] => [(j, v)]
      | (k, w) :: r => (j, Qmin v w) :: (k, w) :: r
      end
  end.

(** The value recorded for input position [i]. *)
Fixpoint value_at (i : nat) (l : list (nat * Q)) : Q :=
  match l with
  | [] => 1
  | (j, v) :: t => if (j =? i)%nat then v else value_at i t
  end.

(** The values in input order. *)
Definition put_back (n : nat) (l : list (nat * Q)) : list Q :=
  map (fun i => value_at i l) (seq 0 n).

Definition clip01 (x : Q) : Q := Qmin (Qmax x 0) 1.

(** Modelled from the spec: the library function
    [false_discovery_control], absent from the repository.  "Sort p-values
    ascending, adjusted p-value for rank i (1-indexed, m total tests) =
    p_i * m / i, then enforce monotonicity by taking the running minimum
    from the largest rank down to the smallest, finally clip to [0, 1]";
    "same length and order as input". *)
Definition false_discovery_control (ps : list Q) : list Q :=
  let m := List.length ps in
  let ranked := argsort ps in
  let scaled := scale (of_nat m) 1 ranked in
  let monotone := running_min_from_end scaled in
  map clip01 (put_back m monotone).

(** [multipletests(pvals, method='fdr_bh')[1]] *)
Definition multipletests_fdr_bh (pvals : list Q) : list Q :=
  false_discovery_control pvals.

(** Auxiliary notions for the proofs: the order of the sorted list, and
    the sorted list with the raw and the adjusted value of each entry side
    by side. *)
Definition by_p (x y : nat * Q) : Prop := snd x <= snd y.

Fixpoint adjusted (m : Q) (k : nat) (l : list (nat * Q)) : list (nat * Q * Q) :=
  match l with
  | [] => []
  | (j, p) :: t =>
      let rest := adjusted m (S k) t in
      (j, p, match rest with
             | [] => p * m / of_nat k
             | (_, w) :: _ => Qmin (p * m / of_nat k) w
             end) :: rest
  end.

Definition raw (t : nat * Q * Q) : Q := snd (fst t).
Definition adj (t : nat * Q * Q) : Q := snd t.

Definition ordered (x y : nat * Q * Q) : Prop :=
  adj x <= adj y /\ (raw y <= raw x -> adj y <= adj x).

End Correction.

(** ** The per-gene two-sample test *)

Module Engine.

Import Pandas Stratify.
Local Open Scope R_scope.

(** [np.log2] *)
Definition log2 (x : R) : R := ln x / ln 2.

(** [np.log2(x + 1)] on one cell. *)
Definition log2p1 (x : Q) : R := log2 (Q2R x + 1).

Definition total (l : list R) : R := fold_right Rplus 0 l.

(** [Series.mean()] *)
Definition mean (l : list R) : R := total l / INR (List.length l).

(** [Series.std()], the sample standard deviation. *)
Definition std (l : list R) : R :=
  sqrt (total (map (fun x => (x - mean l) * (x - mean l)) l) / (INR (List.length l) - 1)).

Definition to_R (l : list Q) : list R := map Q2R l.

(** [gene_symbols.get(key, default)] *)
Fixpoint dict_get (d : Resolver.GeneSymbolMap) (key default : string) : string :=
  match d with
  | [] => default
  | (k, v) :: rest => if String.eqb k key then v else dict_get rest key default
  end.

(** One entry of [results] in [run_differential_expression]. *)
Record WebRecord : Type := {
  gene_id : string;
  gene_symbol : string;
  log2_fold_change : R;
  p_value : Q;
  high_mean : R;
  low_mean : R;
  high_std : R;
  low_std : R
}.

(** One entry of [results] in [run_simple_differential_expression]. *)
Record DERow : Type := {
  baseMean : R;
  log2FoldChange : R;
  stat : R;
  pvalue : Q
}.

Section WithTest.

(** [scipy.stats.ttest_ind(a, b)]: the statistic and the p-value, or
    [None] when the call raises. *)
Variable ttest_ind : list R -> list R -> option (R * Q).

(** The body of the [try] block of [run_differential_expression]; [None]
    when it raises, which the bare [except] turns into [continue]. *)
Definition try_test (gene_symbols : Resolver.GeneSymbolMap) (gene_id : string)
    (high_expr low_expr : list R) : option WebRecord :=
  match ttest_ind high_expr low_expr with
  | None => None
  | Some (_, pval) =>
      let log2fc := log2 ((mean high_expr + / 1000000) / (mean low_expr + / 1000000)) in
      let clean_id := Str.before_dot gene_id in
      let symbol := dict_get gene_symbols clean_id clean_id in
      Some {| gene_id := gene_id;
              gene_symbol := symbol;
              log2_fold_change := log2fc;
              p_value := pval;
              high_mean := mean high_expr;
              low_mean := mean low_expr;
              high_std := std high_expr;
              low_std := std low_expr |}
  end.

(** [run_differential_expression(self, high_samples, low_samples)] of the
    web app: one pass over the rows in index order. *)
Fixpoint run_differential_expression (gene_symbols : Resolver.GeneSymbolMap)
    (expression_data : DataFrame) (high_samples low_samples : list string)
    : result (list WebRecord) :=
  match expression_data with
  | [] => inr []
  | (gene_id, row) :: rest =>
      high_expr <- loc_samples row high_samples ;;
      low_expr <- loc_samples row low_samples ;;
      let this :=
        if (List.length high_expr <? 3)%nat || (List.length low_expr <? 3)%nat then None
        else try_test gene_symbols gene_id (to_R high_expr) (to_R low_expr) in
      results <- run_differential_expression gene_symbols rest high_samples low_samples ;;
      inr (match this with
           | Some r => r :: results
           | None => results
           end)
  end.

(** The loop body of [run_simple_differential_expression]. *)
Definition test_row (group1_samples group2_samples : list string) (row : Series)
    : result DERow :=
  expr1 <- loc_samples row group1_samples ;;
  expr2 <- loc_samples row group2_samples ;;
  let log_expr1 := map log2p1 expr1 in
  let log_expr2 := map log2p1 expr2 in
  match ttest_ind log_expr2 log_expr1 with
  | None => inl LibraryError
  | Some (st, pval) =>
      let log2fc := mean log_expr2 - mean log_expr1 in
      inr {| baseMean := mean (to_R (values row));
             log2FoldChange := log2fc;
             stat := st;
             pvalue := pval |}
  end.

(** [run_simple_differential_expression(self, expression_data, design_matrix)]
    of the enhanced variant.  The table is indexed by
    [expression_data.index]; each entry is (row key, record, padj).  An
    empty matrix gives a frame without columns, on which
    [results_df['pvalue']] raises. *)
Definition run_simple_differential_expression (expression_data : DataFrame)
    (design_matrix : Design) : result (list (string * DERow * Q)) :=
  let groups := unique (map snd design_matrix) in
  if negb (List.length groups =? 2)%nat then
    inl (ValueError "Simple DE requires exactly 2 groups")
  else
    let group1_samples := samples_of design_matrix (nth 0 groups ""%string) in
    let group2_samples := samples_of design_matrix (nth 1 groups ""%string) in
    results <- mapM (fun r => test_row group1_samples group2_samples (snd r)) expression_data ;;
    match results with
    | [] => inl (KeyError "pvalue")
    | _ :: _ =>
        let padj := Correction.multipletests_fdr_bh (map pvalue results) in
        inr (combine (combine (index expression_data) results) padj)
    end.

End WithTest.

End Engine.

(** ** Significance labels *)

Module Classifier.

Local Open Scope R_scope.

Definition Qltb (x y : Q) : bool := negb (Qle_bool y x).

Definition Rltb (x y : R) : bool := if Rlt_dec x y then true else false.

(** The two entries of [conditions] in [analysis_section], for one row. *)
Definition cond_up (p_threshold : Q) (fc_threshold : R) (adj_p_value : Q)
    (log2_fold_change : R) : bool :=
  Qltb adj_p_value p_threshold && Rltb fc_threshold log2_fold_change.

Definition cond_down (p_threshold : Q) (fc_threshold : R) (adj_p_value : Q)
    (log2_fold_change : R) : bool :=
  Qltb adj_p_value p_threshold && Rltb log2_fold_change (- fc_threshold).

(** [np.select(conditions, ['up', 'down'], default='ns')] for one row:
    the choice of the first condition that holds. *)
Definition significance (p_threshold : Q) (fc_threshold : R) (adj_p_value : Q)
    (log2_fold_change : R) : string :=
  if cond_up p_threshold fc_threshold adj_p_value log2_fold_change then "up"
  else if cond_down p_threshold fc_threshold adj_p_value log2_fold_change then "down"
  else "ns".

(** The enhanced variant keeps no label column; its summary filters
    [(padj < p_threshold) & (np.abs(log2FoldChange) > fc_threshold)] and
    then splits the survivors on the sign of the fold change. *)
Definition is_significant (p_threshold : Q) (fc_threshold : R) (padj : Q)
    (log2FoldChange : R) : bool :=
  Qltb padj p_threshold && Rltb fc_threshold (Rabs log2FoldChange).



End Classifier.

(** ** The analysis of the web app *)

Module WebApp.

Import Pandas.

(** A row of [de_results] once the correction and the labels are added. *)
Record WebResult : Type := {
  record : Engine.WebRecord;
  adj_p_value : Q;
  significance : string
}.

(** [de_results.sort_values('adj_p_value')] *)
Fixpoint insert_by_adj (x : WebResult) (l : list WebResult) : list WebResult :=
  match l with
  | [] => [x]
  | y :: t =>
      if Qle_bool (adj_p_value x) (adj_p_value y) then x :: l
      else y :: insert_by_adj x t
  end.

Definition sort_values (l : list WebResult) : list WebResult :=
  fold_right insert_by_adj [] l.

(** Ascending order of adjusted p-value. *)
Definition by_adj (x y : WebResult) : Prop :=
  (adj_p_value x <= adj_p_value y)%Q.

(** What pressing the button leaves behind: the early [return] after
    "Could not find ...", the [except Exception] branch, or the table
    stored in [st.session_state.de_results]. *)
Inductive outcome : Type :=
| GeneNotFound
| AnalysisFailed (e : exn)
| AnalysisComplete (de_results : list WebResult).

Section WithTest.

Variable ttest_ind : list R -> list R -> option (R * Q).

(** The steps of the [try] block of [analysis_section] after the target
    gene is found.  An empty list of records makes a frame without
    columns, on which [de_results['p_value']] raises. *)
Definition analyse_groups (gene_symbols : Resolver.GeneSymbolMap)
    (expression_data : DataFrame) (p_threshold : Q) (fc_threshold : R)
    (high_samples low_samples : list string) : result (list WebResult) :=
  de_results <- Engine.run_differential_expression ttest_ind gene_symbols
                  expression_data high_samples low_samples ;;
  match de_results with
  | [] => inl (KeyError "p_value")
  | _ :: _ =>
      let adj := Correction.false_discovery_control (map Engine.p_value de_results) in
      let labelled :=
        map (fun ra =>
               {| record := fst ra;
                  adj_p_value := snd ra;
                  significance :=
                    Classifier.significance p_threshold fc_threshold (snd ra)
                      (Engine.log2_fold_change (fst ra)) |})
            (combine de_results adj) in
      inr (sort_values labelled)
  end.

(** The button handler of [analysis_section].  [high_threshold] and
    [low_threshold] are the locals the custom-threshold inputs fill in;
    the call of [group_samples] passes the gene and the method only. *)
Definition analysis_section (gene_symbols : Resolver.GeneSymbolMap)
    (expression_data : DataFrame) (target_gene : string)
    (p_threshold : Q) (fc_threshold : R) (grouping_method : string)
    (high_threshold low_threshold : option Q) : outcome :=
  match Resolver.find_target_gene gene_symbols (index expression_data) target_gene with
  | None => GeneNotFound
  | Some target_gene_id =>
      match
        (groups <- Stratify.group_samples Stratify.module_globals expression_data
                     target_gene_id grouping_method ;;
         analyse_groups gene_symbols expression_data p_threshold fc_threshold
           (fst groups) (snd groups))
      with
      | inl e => AnalysisFailed e
      | inr de_results => AnalysisComplete de_results
      end
  end.

End WithTest.

End WebApp.

(** ** The analysis of the enhanced variant *)

Module Enhanced.

Import Pandas.

Section WithTest.

Variable ttest_ind : list R -> list R -> option (R * Q).

(** The t-test path of [differential_expression_section] without
    clinical data: expression-based grouping, then the simple engine; the
    table is stored as the engine returns it. *)
Definition differential_expression_section (gene_symbols : Resolver.GeneSymbolMap)
    (expression_data : DataFrame) (target_gene : string) (grouping_method : string)
    : result (list (string * Engine.DERow * Q)) :=
  design_subset <- Stratify.create_expression_groups gene_symbols expression_data
                     target_gene grouping_method ;;
  Engine.run_simple_differential_expression ttest_ind expression_data design_subset.

End WithTest.

End Enhanced.

(** ** Example data *)

Module Samples.
Import Pandas.
Local Open Scope string_scope.

(** Five samples of a gene, four of them without signal. *)
Definition sparse_matrix : DataFrame :=
  [("TCN1", [("s1", 0%Q); ("s2", 0%Q); ("s3", 0%Q); ("s4", 0%Q); ("s5", 7%Q)])].

Definition six (a b c d e f : Q) : Series :=
  [("s1", a); ("s2", b); ("s3", c); ("s4", d); ("s5", e); ("s6", f)].

(** Two genes over six samples: one with the same values in s1..s3 and
    s4..s6, one that is higher in s4..s6. *)
Definition two_genes : DataFrame :=
  [("flat", six 0 1 3 0 1 3); ("shifted", six 0 1 3 7 15 31)].

(** The second of them alone. *)
Definition shifted_only : DataFrame := [("shifted", six 0 1 3 7 15 31)].

(** A gene that is constant over all samples, next to one that is not. *)
Definition with_constant_gene : DataFrame :=
  [("constant", six 10 10 10 10 10 10); ("shifted", six 0 1 3 7 15 31)].

Definition low_high : Stratify.Design :=
  [("s1", "Low"); ("s2", "Low"); ("s3", "Low");
   ("s4", "High"); ("s5", "High"); ("s6", "High")].

(** A stand-in for SciPy's test on the examples: statistic 0, p-value 1
    when the two sample means agree and 0.02 when they differ. *)
Definition means_test (a b : list R) : option (R * Q) :=
  Some (0%R, if Req_dec_T (Engine.mean a) (Engine.mean b) then 1%Q else (2 # 100)%Q).

(** One gene over four samples. *)
Definition four_samples : DataFrame :=
  [("G", [("s1", 1%Q); ("s2", 2%Q); ("s3", 3%Q); ("s4", 4%Q)])].

(** One gene over eight samples. *)
Definition eight_samples : DataFrame :=
  [("G", [("s1", 1%Q); ("s2", 2%Q); ("s3", 3%Q); ("s4", 4%Q);
          ("s5", 5%Q); ("s6", 6%Q); ("s7", 7%Q); ("s8", 8%Q)])].

Definition quartile_design : Stratify.Design :=
  [("s1", "Low"); ("s2", "Low"); ("s3", "Medium"); ("s4", "Medium");
   ("s5", "Medium"); ("s6", "Medium"); ("s7", "High"); ("s8", "High")].

(** A stand-in for SciPy's test that is the same on all slices. *)
Definition constant_test (a b : list R) : option (R * Q) := Some (0%R, (1 # 2)%Q).

End Samples.

(** ** Gene identifier conversion of the web app *)

Module GeneConversion.

Import Pandas.
Local Open Scope string_scope.

(** [range(0, n, step)] for a positive step: 0, step, 2 step, ... below n. *)
Definition range_step (n step : nat) : list nat :=
  map (fun k => k * step)%nat (seq 0 ((n + step - 1) / step)).

(** [clean_ids[i:i+batch_size]] *)
Definition slice (clean_ids : list string) (i batch_size : nat) : list string :=
  firstn batch_size (skipn i clean_ids).

(** The batches the loop of [gene_conversion_section] sends, in order. *)
Definition batches (clean_ids : list string) (batch_size : nat) : list (list string) :=
  map (fun i => slice clean_ids i batch_size)
      (range_step (List.length clean_ids) batch_size).

(** [num_batches = len(clean_ids) // batch_size + 1], the total shown in
    the status line and used for the progress bar. *)
Definition num_batches (clean_ids : list string) (batch_size : nat) : nat :=
  List.length clean_ids / batch_size + 1.

(** [batch_num = (i // batch_size) + 1] *)
Definition batch_num (i batch_size : nat) : nat := i / batch_size + 1.

(** [progress = 0.2 + (0.7 * batch_num / num_batches)] *)
Definition progress (clean_ids : list string) (batch_size i : nat) : Q :=
  (2 # 10) + (7 # 10) * of_nat (batch_num i batch_size)
             / of_nat (num_batches clean_ids batch_size).

(** [clean_ids = [gene.split('.')[0] for gene in top_gene_ids]] *)
Definition clean (top_gene_ids : list string) : list string :=
  map Str.before_dot top_gene_ids.

(** One entry of the answer of [mg.querymany]: a dict that may or may
    not have the keys 'query' and 'symbol'. *)
Record QueryResult : Type := {
  query : option string;
  symbol : option string
}.

(** [d[key] = value] on a dict kept in insertion order: an existing key
    keeps its place and takes the new value. *)
Fixpoint dict_set (d : Resolver.GeneSymbolMap) (key value : string)
    : Resolver.GeneSymbolMap :=
  match d with
  | [] => [(key, value)]
  | (k, v) :: rest =>
      if String.eqb k key then (k, value) :: rest
      else (k, v) :: dict_set rest key value
  end.

(** The loop that builds [gene_symbols] from [all_results]. *)
Definition build_gene_symbols (all_results : list QueryResult) : Resolver.GeneSymbolMap :=
  fold_left
    (fun gene_symbols result =>
       match query result, symbol result with
       | Some q, Some s => dict_set gene_symbols q s
       | _, _ => gene_symbols
       end)
    all_results [].

(** A result that carries both keys and asks about [q]. *)
Definition answers (q : string) (r : QueryResult) : bool :=
  match query r, symbol r with
  | Some q', Some _ => String.eqb q' q
  | _, _ => false
  end.

Definition symbol_or (dflt : string) (r : option QueryResult) : string :=
  match r with
  | Some {| symbol := Some s |} => s
  | _ => dflt
  end.

Section WithService.

(** [mg.querymany(batch, ...)]: the entries it returns, or [None] when
    the call raises. *)
Variable querymany : list string -> option (list QueryResult).

(** [all_results] after the loop over the batches: a failed batch is
    reported and skipped. *)
Definition collect_results (clean_ids : list string) (batch_size : nat) : list QueryResult :=
  flat_map
    (fun batch =>
       match querymany batch with
       | Some results => results
       | None => []
       end)
    (batches clean_ids batch_size).

End WithService.

(** [Series.var()] of a row, with the default [ddof=1]; [None] is the NaN
    of a row with fewer than two values. *)
Definition var (vs : list Q) : option Q :=
  let n := List.length vs in
  if (n <? 2)%nat then None
  else
    let m := (fold_right Qplus 0 vs / of_nat n)%Q in
    Some (fold_right Qplus 0 (map (fun x => (x - m) * (x - m)) vs) / of_nat (n - 1))%Q.

(** The order of [sort_values(ascending=False)]: larger values first, NaN
    last. *)
Definition comes_before (a b : option Q) : bool :=
  match a, b with
  | Some x, Some y => Qle_bool y x
  | Some _, None => true
  | None, Some _ => false
  | None, None => true
  end.

Definition ranks_before (x y : string * option Q) : Prop :=
  comes_before (snd x) (snd y) = true.

Fixpoint insert_desc (x : string * option Q) (l : list (string * option Q))
    : list (string * option Q) :=
  match l with
  | [] => [x]
  | y :: t => if comes_before (snd x) (snd y) then x :: l else y :: insert_desc x t
  end.

(** [expression_data.var(axis=1).sort_values(ascending=False)] *)
Definition gene_vars (expression_data : DataFrame) : list (string * option Q) :=
  fold_right insert_desc []
    (map (fun r => (fst r, var (values (snd r)))) expression_data).

(** [gene_vars.head(top_genes).index.tolist()] *)
Definition top_gene_ids (expression_data : DataFrame) (top_genes : nat) : list string :=
  map fst (firstn top_genes (gene_vars expression_data)).

End GeneConversion.

(** ** Views of the web app on the stored table *)

Module WebViews.

Import Pandas.
Local Open Scope string_scope.

(** The rows of [de_results] once [adj_p_value] and [significance] are
    added, before the sort. *)
Definition labelled (p_threshold : Q) (fc_threshold : R)
    (de_results : list Engine.WebRecord) : list WebApp.WebResult :=
  map (fun ra =>
         {| WebApp.record := fst ra;
            WebApp.adj_p_value := snd ra;
            WebApp.significance :=
              Classifier.significance p_threshold fc_threshold (snd ra)
                (Engine.log2_fold_change (fst ra)) |})
      (combine de_results
         (Correction.false_discovery_control (map Engine.p_value de_results))).

(** [de_results[de_results['significance'] != 'ns']] *)
Definition sig_genes (de_results : list WebApp.WebResult) : list WebApp.WebResult :=
  filter (fun r => negb (String.eqb (WebApp.significance r) "ns")) de_results.

(** [sig_genes[sig_genes['significance'] == label]] *)
Definition with_label (label : string) (rows : list WebApp.WebResult)
    : list WebApp.WebResult :=
  filter (fun r => String.eqb (WebApp.significance r) label) rows.

(** The four numbers of the summary of [results_section] (and of
    [analysis_section] and [generate_analysis_report]): total, significant,
    up, down. *)
Definition summary (de_results : list WebApp.WebResult) : nat * nat * nat * nat :=
  let sig := sig_genes de_results in
  let up_genes := with_label "up" sig in
  let down_genes := with_label "down" sig in
  (List.length de_results, List.length sig, List.length up_genes, List.length down_genes).

(** The gene selection of [create_heatmap]: [None] is the early return
    after "No significant genes found for heatmap". *)
Definition heatmap_genes (de_results : list WebApp.WebResult) (top_n : nat)
    : option (list string) :=
  match sig_genes de_results with
  | [] => None
  | sig => Some (map (fun r => Engine.gene_id (WebApp.record r)) (firstn top_n sig))
  end.

(** [heatmap_data.subtract(heatmap_data.mean(axis=1), axis=0)] on one row. *)
Definition center (row : list R) : list R :=
  map (fun v => (v - Engine.mean row)%R) row.

(** [expression_data.loc[top_genes]], [np.log2(heatmap_data + 1)] and the
    centring, row by row; a gene that is no row key raises [KeyError]. *)
Definition heatmap_data (expression_data : DataFrame) (top_genes : list string)
    : result (list (string * list R)) :=
  mapM (fun g => row <- loc expression_data g ;;
                 inr (g, center (map Engine.log2p1 (values row))))
       top_genes.

(** The colouring of [create_volcano_plot], with the cutoffs of its own
    sliders. *)
Definition category (p_cutoff : Q) (fc_cutoff : R) (r : WebApp.WebResult) : string :=
  if Classifier.cond_up p_cutoff fc_cutoff (WebApp.adj_p_value r)
       (Engine.log2_fold_change (WebApp.record r)) then "Upregulated"
  else if Classifier.cond_down p_cutoff fc_cutoff (WebApp.adj_p_value r)
            (Engine.log2_fold_change (WebApp.record r)) then "Downregulated"
  else "Not Significant".

(** [len(plot_data[plot_data['Category'] == name])] *)
Definition category_count (p_cutoff : Q) (fc_cutoff : R) (name : string)
    (plot_data : list WebApp.WebResult) : nat :=
  List.length (filter (fun r => String.eqb (category p_cutoff fc_cutoff r) name) plot_data).

End WebViews.

(** ** Quality control and lookups of the enhanced variant *)

Module QualityControl.

Import Pandas.

(** [(expr_data > min_expression).sum(axis=1)] for one row. *)
Definition expressed_in (min_expression : Q) (row : Series) : nat :=
  List.length (filter (fun v => Classifier.Qltb min_expression v) (values row)).

(** "Apply Gene Filtering":
    [expr_data[(expr_data > min_expression).sum(axis=1) >= min_samples]] *)
Definition apply_gene_filtering (min_expression : Q) (min_samples : nat)
    (expr_data : DataFrame) : DataFrame :=
  filter (fun r => (min_samples <=? expressed_in min_expression (snd r))%nat) expr_data.

End QualityControl.

Module Lookup.

Import Pandas.

(** The inner loop of [find_gene_expression]: the row of the first key
    that contains the identifier. *)
Fixpoint first_row_containing (gene_id : string) (expression_data : DataFrame)
    : option Series :=
  match expression_data with
  | [] => None
  | (expr_id, row) :: rest =>
      if Str.contains gene_id expr_id then Some row
      else first_row_containing gene_id rest
  end.

Fixpoint row_by_symbol (gene_symbols : Resolver.GeneSymbolMap)
    (expression_data : DataFrame) (target_gene : string) : option Series :=
  match gene_symbols with
  | [] => None
  | (gene_id, symbol) :: rest =>
      if String.eqb (Str.upper symbol) (Str.upper target_gene) then
        match first_row_containing gene_id expression_data with
        | Some row => Some row
        | None => row_by_symbol rest expression_data target_gene
        end
      else row_by_symbol rest expression_data target_gene
  end.

Fixpoint row_by_partial_match (expression_data : DataFrame) (target_gene : string)
    : option Series :=
  match expression_data with
  | [] => None
  | (expr_id, row) :: rest =>
      if Str.contains (Str.upper target_gene) (Str.upper expr_id) then Some row
      else row_by_partial_match rest target_gene
  end.

(** [find_gene_expression(self, target_gene)] of the enhanced variant. *)
Definition find_gene_expression (gene_symbols : Resolver.GeneSymbolMap)
    (expression_data : DataFrame) (target_gene : string) : option Series :=
  match row_by_symbol gene_symbols expression_data target_gene with
  | Some row => Some row
  | None => row_by_partial_match expression_data target_gene
  end.

End Lookup.

(** ** Gene list of the pathway analysis (enhanced variant) *)

Module Pathway.

Import Pandas.
Local Open Scope string_scope.

Definition DETable := list (string * Engine.DERow * Q).

Definition fold_change (e : string * Engine.DERow * Q) : R :=
  Engine.log2FoldChange (snd (fst e)).

(** [de_results[(de_results['padj'] < p_cutoff) &
                (np.abs(de_results['log2FoldChange']) > fc_cutoff)]] *)
Definition significant (p_cutoff : Q) (fc_cutoff : R) (de_results : DETable) : DETable :=
  filter (fun e => Classifier.is_significant p_cutoff fc_cutoff (snd e) (fold_change e))
         de_results.

(** The identifiers kept for the chosen direction. *)
Definition gene_list (direction : string) (p_cutoff : Q) (fc_cutoff : R)
    (de_results : DETable) : list string :=
  let sig := significant p_cutoff fc_cutoff de_results in
  if String.eqb direction "Up-regulated only" then
    map (fun e => fst (fst e)) (filter (fun e => Classifier.Rltb 0 (fold_change e)) sig)
  else if String.eqb direction "Down-regulated only" then
    map (fun e => fst (fst e)) (filter (fun e => Classifier.Rltb (fold_change e) 0) sig)
  else map (fun e => fst (fst e)) sig.

(** The conversion to symbols that follows, when a mapping is there. *)
Definition to_symbols (gene_symbols : Resolver.GeneSymbolMap) (genes : list string)
    : list string :=
  match gene_symbols with
  | [] => genes
  | _ :: _ =>
      map (fun gene_id =>
             let clean_id := Str.before_dot gene_id in
             Engine.dict_get gene_symbols clean_id clean_id)
          genes
  end.

End Pathway.

(** ** Session state of the enhanced variant *)

Module Session.

Local Open Scope string_scope.

(** The values kept in [st.session_state]: [None], a flag, a dict of
    strings, a list, or an object such as a DataFrame or a result. *)
Inductive value : Type :=
| PyNone
| PyBool (b : bool)
| PyDict (d : Resolver.GeneSymbolMap)
| PyList (l : list string)
| PyObject (name : string).

Definition SessionState := list (string * value).

(** [st.session_state[key]], [None] when the key is absent. *)
Fixpoint lookup (state : SessionState) (key : string) : option value :=
  match state with
  | [] => None
  | (k, v) :: rest => if String.eqb k key then Some v else lookup rest key
  end.

(** [key in st.session_state] *)
Definition contains_key (state : SessionState) (key : string) : bool :=
  match lookup state key with
  | Some _ => true
  | None => false
  end.

(** [st.session_state[key] = v] *)
Fixpoint set_item (state : SessionState) (key : string) (v : value) : SessionState :=
  match state with
  | [] => [(key, v)]
  | (k, w) :: rest =>
      if String.eqb k key then (k, v) :: rest else (k, w) :: set_item rest key v
  end.

Definition default_states : SessionState :=
  [("expression_data", PyNone); ("clinical_data", PyNone); ("gene_symbols", PyDict []);
   ("de_results", PyNone); ("pathway_results", PyNone); ("survival_results", PyNone);
   ("literature_results", PyNone); ("current_project", PyNone);
   ("analysis_history", PyList []); ("export_ready", PyBool false)].

(** The body of the loop of [initialize_session_state]:
    [if key not in st.session_state: st.session_state[key] = default_value] *)
Definition fill (st : SessionState) (entry : string * value) : SessionState :=
  if contains_key st (fst entry) then st else set_item st (fst entry) (snd entry).

(** [initialize_session_state]: a default goes in only where the key is
    missing. *)
Definition initialize_session_state (state : SessionState) : SessionState :=
  fold_left fill default_states state.

(** [x is not None] *)
Definition is_not_none (v : value) : bool :=
  match v with
  | PyNone => false
  | _ => true
  end.

(** [bool(x)] *)
Definition truthy (v : value) : bool :=
  match v with
  | PyNone => false
  | PyBool b => b
  | PyDict d => negb (Nat.eqb (List.length d) 0)
  | PyList l => negb (Nat.eqb (List.length l) 0)
  | PyObject _ => true
  end.

(** [progress_items] of [show_sidebar]: the completion flags of the six
    steps.  Each is read as an attribute of [st.session_state]; [None]
    stands for the [AttributeError] of a key that is not there. *)
Definition progress_items (state : SessionState) : option (list bool) :=
  match lookup state "expression_data", lookup state "gene_symbols",
        lookup state "de_results", lookup state "survival_results",
        lookup state "pathway_results", lookup state "literature_results" with
  | Some expression_data, Some gene_symbols, Some de_results,
    Some survival_results, Some pathway_results, Some literature_results =>
      Some [is_not_none expression_data; truthy gene_symbols; is_not_none de_results;
            is_not_none survival_results; is_not_none pathway_results;
            is_not_none literature_results]
  | _, _, _, _, _, _ => None
  end.

(** [completed_count] after the loop over [progress_items]. *)
Definition completed_count (items : list bool) : nat :=
  List.length (filter (fun completed => completed) items).

(** [progress_pct = (completed_count / len(progress_items)) * 100] *)
Definition progress_pct (state : SessionState) : option Q :=
  match progress_items state with
  | Some items =>
      Some (Pandas.of_nat (completed_count items) / Pandas.of_nat (List.length items) * 100)%Q
  | None => None
  end.

(** "Reset All Data": the loop over the seven keys. *)
Definition reset_all (state : SessionState) : SessionState :=
  fold_left
    (fun st key =>
       set_item st key
         (if String.eqb key "expression_data" || String.eqb key "clinical_data"
          then PyNone
          else if String.eqb key "gene_symbols" then PyDict [] else PyNone))
    ["expression_data"; "clinical_data"; "gene_symbols"; "de_results";
     "pathway_results"; "survival_results"; "literature_results"]
    state.

End Session.

(** ** The example data set of the enhanced variant *)

Module ExampleData.

Local Open Scope string_scope.

(** The list comprehension that [load_example_data] assigns to [samples]:
    [[name(i, j) for i in range(n_samples) for j in range(1)
      if len(samples) < n_samples][:n_samples]].
    Its condition reads [samples], the very name being assigned:
    [samples] is the value bound to that name while the comprehension
    runs, [None] when it is unbound. *)
Fixpoint collect (name : nat -> string) (items : list nat) (samples : option (list string))
    (n_samples : nat) : result (list string) :=
  match items with
  | [] => inr []
  | i :: rest =>
      match samples with
      | None => inl (NameError "samples")
      | Some bound =>
          later <- collect name rest samples n_samples ;;
          inr (if (List.length bound <? n_samples)%nat then name i :: later else later)
      end
  end.

Definition sample_names (name : nat -> string) (n_samples : nat)
    (samples : option (list string)) : result (list string) :=
  built <- collect name (seq 0 n_samples) samples n_samples ;;
  inr (firstn n_samples built).

Section WithGenerator.

(** The sample names [f"TCGA-{chr(65+i//26)}{chr(65+i%26)}-{j:04d}"] and
    the random tables made from them. *)
Variable name : nat -> string.
Variable generate : list string -> Session.value * Session.value.

(** The body of the button of [load_example_data]: on the state, with the
    message shown.  [samples] is a local of the method that nothing binds
    before the comprehension. *)
Definition load_example_data (state : Session.SessionState)
    : Session.SessionState * result string :=
  match sample_names name 150 None with
  | inl e => (state, inl e)
  | inr samples =>
      let tables := generate samples in
      (Session.set_item (Session.set_item state "expression_data" (fst tables))
         "clinical_data" (snd tables),
       inr "Example TCGA PAAD dataset loaded successfully!")
  end.

End WithGenerator.

End ExampleData.

(** ** The launcher [run_web_app.py] *)

Module Launcher.

Local Open Scope string_scope.


Section WithSystem.

(** [__import__(name)] succeeds; [pip install name] succeeds. *)
Variable importable : string -> bool.
Variable pip_install : string -> bool.





End WithSystem.

End Launcher.

(** * Properties *)

(** ** Gene resolution *)

Section ResolverFacts.

Import Resolver.
Local Open Scope string_scope.

Lemma first_containing_filter (gene_id : string) (index : list string) :
  first_containing gene_id index = hd_error (filter (Str.contains gene_id) index).
Proof.
  induction index as [|key rest IH]; simpl; [reflexivity|].
  destruct (Str.contains gene_id key); simpl; auto.
Qed.

Lemma by_symbol_hits (gene_symbols : GeneSymbolMap) (index : list string) (target : string) :
  by_symbol gene_symbols index target = hd_error (symbol_hits gene_symbols index target).
Proof.
  unfold symbol_hits.
  induction gene_symbols as [|[gene_id symbol] rest IH]; simpl; [reflexivity|].
  destruct (String.eqb (Str.upper symbol) (Str.upper target)); simpl; [|exact IH].
  rewrite first_containing_filter.
  destruct (filter (Str.contains gene_id) index) as [|key hits]; simpl; auto.
Qed.

Lemma by_partial_match_hits (index : list string) (target : string) :
  by_partial_match index target = hd_error (partial_hits index target).
Proof.
  unfold partial_hits.
  induction index as [|key rest IH]; simpl; [reflexivity|].
  destruct (Str.contains (Str.upper target) (Str.upper key)); simpl; auto.
Qed.

Lemma find_target_gene_spec (gene_symbols : GeneSymbolMap) (index : list string)
    (target : string) :
  find_target_gene gene_symbols index target = resolve_spec gene_symbols index target.
Proof.
  unfold find_target_gene, resolve_spec.
  rewrite <- by_partial_match_hits.
  destruct gene_symbols as [|entry rest]; [reflexivity|].
  rewrite by_symbol_hits.
  destruct (symbol_hits (entry :: rest) index target); reflexivity.
Qed.

Lemma first_containing_in (gene_id key : string) (index : list string) :
  first_containing gene_id index = Some key -> In key index.
Proof.
  induction index as [|k rest IH]; simpl; [discriminate|].
  destruct (Str.contains gene_id k); [intros H; left; congruence | auto].
Qed.

(** X19.  The enhanced variant resolves as the web app does on a matrix without
    an empty row key; its failure is the [ValueError] "Gene ... not found". *)
Lemma locate_gene_find_target_gene (gene_symbols : GeneSymbolMap) (index : list string)
    (target : string) :
  ~ In "" index ->
  locate_gene gene_symbols index target =
  match find_target_gene gene_symbols index target with
  | Some key => inr key
  | None => inl (ValueError ("Gene " ++ target ++ " not found in expression data"))
  end.
Proof.
  intros Hkeys.
  assert (Hscan : scan_symbols gene_symbols index target None
                  = by_symbol gene_symbols index target).
  { induction gene_symbols as [|[gid symbol] rest IH]; simpl; [reflexivity|].
    destruct (String.eqb (Str.upper symbol) (Str.upper target)); [|exact IH].
    destruct (first_containing gid index) as [key|] eqn:Hfc; [|exact IH].
    destruct key; [|reflexivity].
    apply first_containing_in in Hfc. contradiction. }
  unfold locate_gene, find_target_gene. rewrite Hscan.
  destruct gene_symbols as [|entry rest]; [reflexivity|].
  destruct (by_symbol (entry :: rest) index target); reflexivity.
Qed.

(** C3.  [find_target_gene] resolves in the stated order: first the row
    key of the first (map entry, row key) pair whose symbol equals the
    target up to letter case and whose identifier occurs in the key, then
    the first row key containing the target up to letter case; it finds
    nothing exactly when both steps have no candidate; and with the map
    {"ENSG1": "TP53"} and the row key "ENSG1.3" every spelling of "tp53"
    resolves to "ENSG1.3". *)
Theorem find_target_gene_order (gene_symbols : GeneSymbolMap) (index : list string)
    (target : string) :
  find_target_gene gene_symbols index target = resolve_spec gene_symbols index target
  /\ (find_target_gene gene_symbols index target = None <->
      symbol_hits gene_symbols index target = [] /\ partial_hits index target = [])
  /\ (Str.upper target = "TP53" ->
      find_target_gene [("ENSG1", "TP53")] ["ENSG1.3"] target = Some "ENSG1.3").
Proof.
  split; [apply find_target_gene_spec|]. split.
  - rewrite find_target_gene_spec. unfold resolve_spec.
    destruct (symbol_hits gene_symbols index target) as [|k hits].
    + destruct (partial_hits index target); simpl; split;
        [auto | auto | discriminate | intros [_ H]; discriminate].
    + split; [discriminate | intros [H _]; discriminate].
  - intros Hcase. unfold find_target_gene. simpl. rewrite Hcase. reflexivity.
Qed.

Lemma find_target_gene_order_witness :
  find_target_gene [("ENSG1", "TP53")] ["ENSG1.3"] "tP53" = Some "ENSG1.3".
Proof.
  apply (proj2 (proj2 (find_target_gene_order [] [] "tP53"))).
  reflexivity.
Defined.

End ResolverFacts.

(** ** Stratification *)

Section StratifyFacts.

Import Pandas Stratify.
Local Open Scope string_scope.

Lemma labels_where_In (test : Q -> bool) (row : Series) (s : string) :
  In s (labels_where test row) <-> exists v, In (s, v) row /\ test v = true.
Proof.
  unfold labels_where. rewrite in_map_iff. split.
  - intros [[s' v] [Hs Hin]]. simpl in Hs. subst s'.
    apply filter_In in Hin. exists v. exact Hin.
  - intros [v [Hin Ht]]. exists (s, v). split; [reflexivity|].
    apply filter_In. auto.
Qed.

Lemma labels_where_length (test : Q -> bool) (row : Series) :
  List.length (labels_where test row) = List.length (filter (fun c => test (snd c)) row).
Proof. unfold labels_where. apply length_map. Qed.

Lemma filter_length_le {A : Type} (f : A -> bool) (l : list A) :
  (List.length (filter f l) <= List.length l)%nat.
Proof.
  induction l as [|a l IH]; simpl; [lia|].
  destruct (f a); simpl; lia.
Qed.

Lemma filter_split_length {A : Type} (f g : A -> bool) (l : list A) :
  (forall a, In a l -> f a = true -> g a = true -> False) ->
  (List.length (filter f l) + List.length (filter g l) <= List.length l)%nat.
Proof.
  induction l as [|a l IH]; simpl; intros Hex; [lia|].
  assert (IH' := IH (fun b Hb => Hex b (or_intror Hb))).
  destruct (f a) eqn:Hf, (g a) eqn:Hg; simpl; try lia.
  exfalso. apply (Hex a); auto.
Qed.

Lemma filter_complement_length {A : Type} (f g : A -> bool) (l : list A) :
  (forall a, In a l -> g a = negb (f a)) ->
  (List.length (filter f l) + List.length (filter g l) = List.length l)%nat.
Proof.
  induction l as [|a l IH]; simpl; intros Hc; [lia|].
  assert (IH' := IH (fun b Hb => Hc b (or_intror Hb))).
  rewrite (Hc a (or_introl eq_refl)).
  destruct (f a); simpl; lia.
Qed.

(** A label names one cell when the column labels are distinct. *)
Lemma cell_unique (row : Series) (s : string) (v w : Q) :
  NoDup (map fst row) -> In (s, v) row -> In (s, w) row -> v = w.
Proof.
  induction row as [|[s' u] row IH]; simpl; intros Hnd Hv Hw; [contradiction|].
  inversion Hnd as [|? ? Hnot Hnd']; subst.
  destruct Hv as [Hv|Hv], Hw as [Hw|Hw].
  - congruence.
  - inversion Hv; subst. exfalso. apply Hnot.
    apply in_map_iff. exists (s, w). auto.
  - inversion Hw; subst. exfalso. apply Hnot.
    apply in_map_iff. exists (s, v). auto.
  - auto.
Qed.

(** X20.  The median split of the web app puts every sample in exactly one of
    the two groups (in none when the row is empty). *)
Lemma median_split_partition (expression_data : DataFrame) (key : string)
    (high low : list string) (row : Series) :
  loc expression_data key = inr row ->
  NoDup (map fst row) ->
  group_samples module_globals expression_data key "Median split" = inr (high, low) ->
  (forall s, In s high -> In s low -> False) /\
  (List.length high + List.length low <= List.length row)%nat /\
  (row <> [] -> (List.length high + List.length low = List.length row)%nat).
Proof.
  intros Hloc Hnd. unfold group_samples. rewrite Hloc. simpl.
  intros H. inversion H; subst; clear H.
  destruct (median (values row)) as [t|] eqn:Hm.
  - split; [|split].
    + intros s Hh Hl.
      apply labels_where_In in Hh. destruct Hh as [v [Hv Hge]].
      apply labels_where_In in Hl. destruct Hl as [w [Hw Hlt]].
      rewrite (cell_unique row s v w Hnd Hv Hw) in Hge.
      simpl in Hge, Hlt. rewrite Hge in Hlt. discriminate.
    + rewrite !labels_where_length.
      rewrite (filter_complement_length _ _ row); [lia|reflexivity].
    + intros _. rewrite !labels_where_length.
      apply filter_complement_length. reflexivity.
  - split; [|split].
    + intros s Hh. apply labels_where_In in Hh. destruct Hh as [v [_ Hge]]. discriminate.
    + rewrite !labels_where_length.
      apply filter_split_length. intros a _ Hf. discriminate.
    + intros Hne. exfalso. unfold median in Hm.
      destruct (List.length (sort (values row)) =? 0)%nat eqn:Hlen.
      * apply Nat.eqb_eq in Hlen.
        assert (Hs : forall l, List.length (sort l) = List.length l).
        { clear. assert (Hi : forall x l, List.length (insert_sorted x l) = S (List.length l)).
          { intros x l. induction l as [|y l IH]; simpl; [reflexivity|].
            destruct (Qle_bool x y); simpl; auto. }
          induction l as [|x l IH]; simpl; [reflexivity|]. rewrite Hi. auto. }
        rewrite Hs in Hlen. unfold values in Hlen. rewrite length_map in Hlen.
        destruct row; [auto|discriminate].
      * destruct (Nat.odd _); discriminate.
Qed.

(** X21.  The quartile split of the web app separates the two groups when the
    two quartiles differ. *)
Lemma quartile_split_disjoint (expression_data : DataFrame) (key : string)
    (high low : list string) (row : Series) (q75 q25 : Q) :
  loc expression_data key = inr row ->
  NoDup (map fst row) ->
  quantile (values row) (75 # 100) = Some q75 ->
  quantile (values row) (25 # 100) = Some q25 ->
  (q25 < q75)%Q ->
  group_samples module_globals expression_data key
    "Quartile split (top 25% vs bottom 25%)" = inr (high, low) ->
  (forall s, In s high -> In s low -> False) /\
  (List.length high + List.length low <= List.length row)%nat.
Proof.
  intros Hloc Hnd H75 H25 Hlt. unfold group_samples. rewrite Hloc. simpl.
  rewrite H75, H25. intros H. inversion H; subst; clear H.
  assert (Hex : forall v, at_least v (Some q75) = true -> at_most v (Some q25) = true -> False).
  { intros v Hge Hle. unfold at_least in Hge. unfold at_most in Hle.
    apply Qle_bool_iff in Hge. apply Qle_bool_iff in Hle. lra. }
  split.
  - intros s Hh Hl.
    apply labels_where_In in Hh. destruct Hh as [v [Hv Hge]].
    apply labels_where_In in Hl. destruct Hl as [w [Hw Hle]].
    rewrite (cell_unique row s v w Hnd Hv Hw) in Hge. eauto.
  - rewrite !labels_where_length. apply filter_split_length.
    intros a _. apply Hex.
Qed.

(** X22.  A design gives each sample one label: two different labels name
    disjoint sets of samples, whose sizes add up to at most the number of
    samples. *)
Lemma design_groups_disjoint (design : Design) (a b : string) :
  a <> b ->
  NoDup (map fst design) ->
  (forall s, In s (samples_of design a) -> In s (samples_of design b) -> False) /\
  (List.length (samples_of design a) + List.length (samples_of design b)
   <= List.length design)%nat.
Proof.
  intros Hab Hnd. split.
  - intros s Ha Hb. unfold samples_of in Ha, Hb.
    apply in_map_iff in Ha. destruct Ha as [[s1 l1] [E1 H1]].
    apply in_map_iff in Hb. destruct Hb as [[s2 l2] [E2 H2]].
    simpl in E1, E2. subst s1 s2.
    apply filter_In in H1. destruct H1 as [H1 Hl1].
    apply filter_In in H2. destruct H2 as [H2 Hl2].
    simpl in Hl1, Hl2. apply String.eqb_eq in Hl1. apply String.eqb_eq in Hl2. subst l1 l2.
    assert (Hu : forall (d : Design) x y, NoDup (map fst d) -> In (s, x) d -> In (s, y) d -> x = y).
    { clear. induction d as [|[s' u] d IH]; simpl; intros x y Hnd Hx Hy; [contradiction|].
      inversion Hnd as [|? ? Hnot Hnd']; subst.
      destruct Hx as [Hx|Hx], Hy as [Hy|Hy].
      - congruence.
      - inversion Hx; subst. exfalso. apply Hnot. apply in_map_iff. exists (s, y). auto.
      - inversion Hy; subst. exfalso. apply Hnot. apply in_map_iff. exists (s, x). auto.
      - eauto. }
    apply Hab. exact (Hu design a b Hnd H1 H2).
  - unfold samples_of. rewrite !length_map. apply filter_split_length.
    intros [s l] _ Ha Hb. simpl in Ha, Hb.
    apply String.eqb_eq in Ha. apply String.eqb_eq in Hb. congruence.
Qed.

(** X23.  The labelling of the enhanced variant gives every sample of the row
    exactly one label. *)
Lemma create_expression_groups_samples (gene_symbols : Resolver.GeneSymbolMap)
    (expression_data : DataFrame) (target method : string) (design : Design) :
  create_expression_groups gene_symbols expression_data target method = inr design ->
  exists row, In row (map snd expression_data) /\ map fst design = map fst row.
Proof.
  unfold create_expression_groups.
  destruct (Resolver.locate_gene gene_symbols (index expression_data) target) as [e|gene_id];
    simpl; [discriminate|].
  destruct (loc expression_data gene_id) as [e|row] eqn:Hloc; simpl; [discriminate|].
  destruct (label_samples row method) as [e|groups] eqn:Hlab; simpl; [discriminate|].
  intros H. inversion H; subst; clear H. exists row. split.
  - clear Hlab. induction expression_data as [|[k r] rest IH]; simpl in *; [discriminate|].
    destruct (String.eqb k gene_id); [left; congruence | right; auto].
  - assert (Hlen : List.length groups = List.length row).
    { unfold label_samples in Hlab.
      repeat match type of Hlab with
             | (if ?c then _ else _) = _ => destruct c
             end; inversion Hlab; subst; unfold values; rewrite !length_map; reflexivity. }
    clear Hlab Hloc. revert groups Hlen.
    induction row as [|[s v] row IH]; intros [|g groups] Hlen; simpl in *;
      try discriminate; [reflexivity|].
    f_equal. apply IH. lia.
Qed.

End StratifyFacts.

Section GroupSamplesFacts.

Import Pandas Stratify Samples.
Local Open Scope string_scope.

Lemma find_target_gene_in_index (gene_symbols : Resolver.GeneSymbolMap)
    (index : list string) (target key : string) :
  Resolver.find_target_gene gene_symbols index target = Some key -> In key index.
Proof.
  rewrite find_target_gene_spec. unfold Resolver.resolve_spec.
  destruct (Resolver.symbol_hits gene_symbols index target) as [|k hits] eqn:Hs.
  - unfold Resolver.partial_hits.
    destruct (filter _ index) as [|k hits] eqn:Hp; simpl; [discriminate|].
    intros H. inversion H; subst.
    assert (Hin : In key (filter
      (fun k => Str.contains (Str.upper target) (Str.upper k)) index))
      by (rewrite Hp; left; reflexivity).
    apply filter_In in Hin. tauto.
  - intros H. inversion H; subst.
    assert (Hin : In key (Resolver.symbol_hits gene_symbols index target))
      by (rewrite Hs; left; reflexivity).
    unfold Resolver.symbol_hits in Hin. apply in_flat_map in Hin.
    destruct Hin as [entry [_ Hin]].
    destruct (String.eqb _ _); [|contradiction].
    apply filter_In in Hin. tauto.
Qed.

Lemma loc_in_index (expression_data : DataFrame) (key : string) :
  In key (index expression_data) -> exists row, loc expression_data key = inr row.
Proof.
  induction expression_data as [|[k r] rest IH]; simpl; [contradiction|].
  intros [Hk|Hin].
  - subst k. rewrite String.eqb_refl. eauto.
  - destruct (String.eqb k key); eauto.
Qed.

(** The custom branch of [group_samples] stops at its first read of
    [high_threshold]. *)
Lemma group_samples_custom_unbound (expression_data : DataFrame) (key : string)
    (row : Series) :
  loc expression_data key = inr row ->
  group_samples module_globals expression_data key "Custom thresholds"
  = inl (NameError "high_threshold").
Proof.
  intros Hloc. unfold group_samples. rewrite Hloc. reflexivity.
Qed.

(** Had the module bound the two names, the branch would cut the row at
    them: at or above the high cut, at or below the low cut. *)
Lemma group_samples_custom_bound (expression_data : DataFrame) (key : string)
    (row : Series) (high_cut low_cut : Q) :
  loc expression_data key = inr row ->
  group_samples [("high_threshold", high_cut); ("low_threshold", low_cut)]
    expression_data key "Custom thresholds"
  = inr (labels_where (fun v => Qle_bool high_cut v) row,
         labels_where (fun v => Qle_bool v low_cut) row).
Proof.
  intros Hloc. unfold group_samples. rewrite Hloc. reflexivity.
Qed.

(** C7.  With the method "Custom thresholds" the analysis of the web app
    ends in the [NameError] of [high_threshold], whatever cuts the caller
    typed in: [group_samples] reads the two names without receiving
    them, so no sample is assigned to a group. *)
Theorem custom_thresholds_name_error (ttest_ind : list R -> list R -> option (R * Q))
    (gene_symbols : Resolver.GeneSymbolMap) (expression_data : DataFrame)
    (target key : string) (p_threshold : Q) (fc_threshold : R)
    (high_threshold low_threshold : option Q) :
  Resolver.find_target_gene gene_symbols (index expression_data) target = Some key ->
  WebApp.analysis_section ttest_ind gene_symbols expression_data target
    p_threshold fc_threshold "Custom thresholds" high_threshold low_threshold
  = WebApp.AnalysisFailed (NameError "high_threshold").
Proof.
  intros Hfind. unfold WebApp.analysis_section. rewrite Hfind.
  destruct (loc_in_index expression_data key (find_target_gene_in_index _ _ _ _ Hfind))
    as [row Hloc].
  rewrite (group_samples_custom_unbound _ _ _ Hloc). reflexivity.
Qed.

Lemma custom_thresholds_name_error_witness :
  WebApp.analysis_section (fun _ _ => None) [] sparse_matrix "tcn1"
    (5 # 100) 1%R "Custom thresholds" (Some 5%Q) (Some 1%Q)
  = WebApp.AnalysisFailed (NameError "high_threshold").
Proof.
  apply (custom_thresholds_name_error (fun _ _ => None) [] sparse_matrix "tcn1" "TCN1").
  reflexivity.
Defined.

(** C6.  On a row whose two quartiles coincide the quartile split of the
    web app puts the samples at that value in both groups: here s1..s4 are
    "high" and "low" at once, and the group sizes add up to 9 for 5
    samples. *)
Theorem quartile_split_overlap :
  group_samples module_globals sparse_matrix "TCN1"
    "Quartile split (top 25% vs bottom 25%)"
  = inr (["s1"; "s2"; "s3"; "s4"; "s5"], ["s1"; "s2"; "s3"; "s4"]).
Proof. reflexivity. Qed.

End GroupSamplesFacts.

(** ** The engine of the enhanced variant *)

Section SimpleEngineFacts.

Import Pandas Stratify.
Local Open Scope string_scope.

Variable ttest_ind : list R -> list R -> option (R * Q).

Lemma unique_In (l : list string) (x : string) : In x (unique l) <-> In x l.
Proof.
  induction l as [|y l IH]; simpl; [tauto|].
  rewrite filter_In, IH. split.
  - tauto.
  - intros [H|H]; [auto|].
    destruct (String.eqb y x) eqn:E.
    + apply String.eqb_eq in E. auto.
    + right. split; [exact H|reflexivity].
Qed.

Lemma unique_NoDup (l : list string) : NoDup (unique l).
Proof.
  induction l as [|y l IH]; simpl; constructor.
  - rewrite filter_In. intros [_ H]. rewrite String.eqb_refl in H. discriminate.
  - apply NoDup_filter. exact IH.
Qed.

Lemma three_distinct_length (l : list string) (a b c : string) :
  NoDup l -> In a l -> In b l -> In c l -> a <> b -> a <> c -> b <> c ->
  (3 <= List.length l)%nat.
Proof.
  intros Hnd Ha Hb Hc Hab Hac Hbc.
  assert (Hincl : incl [a; b; c] l).
  { intros x [H|[H|[H|[]]]]; subst; assumption. }
  assert (Hnd3 : NoDup [a; b; c]).
  { repeat constructor; simpl; intuition congruence. }
  exact (NoDup_incl_length Hnd3 Hincl).
Qed.

Lemma mapM_inl {A B : Type} (f : A -> result B) (l : list A) (e : exn) :
  mapM f l = inl e -> exists a, In a l /\ f a = inl e.
Proof.
  induction l as [|a l IH]; simpl; [discriminate|].
  destruct (f a) as [e'|b] eqn:Hf; simpl.
  - intros H. inversion H; subst. exists a. auto.
  - destruct (mapM f l) as [e'|bs]; simpl; [|discriminate].
    intros H. inversion H; subst. destruct (IH eq_refl) as [a' [Hin Ha']].
    exists a'. auto.
Qed.

Lemma mapM_length {A B : Type} (f : A -> result B) (l : list A) (bs : list B) :
  mapM f l = inr bs -> List.length bs = List.length l.
Proof.
  revert bs. induction l as [|a l IH]; simpl; intros bs.
  - intros H. inversion H. reflexivity.
  - destruct (f a) as [e|b]; simpl; [discriminate|].
    destruct (mapM f l) as [e|bs']; simpl; [discriminate|].
    intros H. inversion H; subst. simpl. f_equal. auto.
Qed.

Lemma at_label_error (row : Series) (s : string) (e : exn) :
  at_label row s = inl e -> e = KeyError s.
Proof.
  induction row as [|[l v] row IH]; simpl.
  - intros H. inversion H. reflexivity.
  - destruct (String.eqb l s); [discriminate|exact IH].
Qed.

Lemma loc_samples_error (row : Series) (samples : list string) (e : exn) :
  loc_samples row samples = inl e -> exists s, e = KeyError s.
Proof.
  intros H. apply mapM_inl in H. destruct H as [s [_ H]].
  exists s. eapply at_label_error; eauto.
Qed.

Lemma test_row_error (g1 g2 : list string) (row : Series) (e : exn) :
  Engine.test_row ttest_ind g1 g2 row = inl e ->
  e = LibraryError \/ exists s, e = KeyError s.
Proof.
  unfold Engine.test_row.
  destruct (loc_samples row g1) as [e1|expr1] eqn:H1; simpl.
  - intros H. inversion H; subst. right. eapply loc_samples_error; eauto.
  - destruct (loc_samples row g2) as [e2|expr2] eqn:H2; simpl.
    + intros H. inversion H; subst. right. eapply loc_samples_error; eauto.
    + destruct (ttest_ind _ _) as [[st pval]|]; [discriminate|].
      intros H. inversion H. auto.
Qed.

(** The engine's own [ValueError] is raised exactly on a design whose
    condition column has other than two distinct labels. *)
Lemma two_groups_guard (expression_data : DataFrame) (design : Design) :
  Engine.run_simple_differential_expression ttest_ind expression_data design
  = inl (ValueError "Simple DE requires exactly 2 groups")
  <-> List.length (unique (map snd design)) <> 2%nat.
Proof.
  unfold Engine.run_simple_differential_expression.
  destruct (List.length (unique (map snd design)) =? 2)%nat eqn:Hn; simpl.
  - apply Nat.eqb_eq in Hn. split; [|intros H; contradiction].
    intros H. exfalso.
    destruct (mapM _ expression_data) as [e|results] eqn:Hm; simpl in H.
    + apply mapM_inl in Hm. destruct Hm as [r [_ Hr]].
      apply test_row_error in Hr. inversion H; subst.
      destruct Hr as [Hr|[s Hr]]; discriminate.
    + destruct results; discriminate.
  - apply Nat.eqb_neq in Hn. split; auto.
Qed.

(** C10.  [run_simple_differential_expression] raises its [ValueError]
    if and only if the condition column of the design does not have
    exactly two distinct labels, and then returns no table; a design in
    which "High", "Medium" and "Low" all occur is rejected in this way. *)
Theorem simple_engine_two_groups (expression_data : DataFrame) (design : Design) :
  (Engine.run_simple_differential_expression ttest_ind expression_data design
   = inl (ValueError "Simple DE requires exactly 2 groups")
   <-> List.length (unique (map snd design)) <> 2%nat)
  /\ (List.length (unique (map snd design)) <> 2%nat ->
      forall table,
        Engine.run_simple_differential_expression ttest_ind expression_data design
        <> inr table)
  /\ (In "High" (map snd design) -> In "Medium" (map snd design) ->
      In "Low" (map snd design) ->
      Engine.run_simple_differential_expression ttest_ind expression_data design
      = inl (ValueError "Simple DE requires exactly 2 groups")).
Proof.
  split; [apply two_groups_guard|]. split.
  - intros Hn table Heq.
    apply (proj2 (two_groups_guard expression_data design)) in Hn. congruence.
  - intros Hh Hm Hl. apply two_groups_guard.
    assert (3 <= List.length (unique (map snd design)))%nat; [|lia].
    apply (three_distinct_length _ "High" "Medium" "Low");
      try (apply unique_In; assumption);
      try apply unique_NoDup; discriminate.
Qed.

End SimpleEngineFacts.

(** ** Significance labels *)

Section ClassifierFacts.

Import Classifier.
Local Open Scope string_scope.

Lemma Qltb_lt (x y : Q) : Qltb x y = true <-> (x < y)%Q.
Proof.
  unfold Qltb. rewrite negb_true_iff. split.
  - intros H. apply Qnot_le_lt. intros Hle.
    apply Qle_bool_iff in Hle. congruence.
  - intros H. destruct (Qle_bool y x) eqn:E; [|reflexivity].
    apply Qle_bool_iff in E. exfalso. apply (Qlt_not_le _ _ H E).
Qed.

Lemma Rltb_lt (x y : R) : Rltb x y = true <-> (x < y)%R.
Proof.
  unfold Rltb. destruct (Rlt_dec x y); split; auto; discriminate.
Qed.



(** Whatever the thresholds, the label is the choice of the first
    condition that holds. *)
Lemma significance_cases (p : Q) (fc : R) (adj : Q) (lfc : R) :
  (cond_up p fc adj lfc = true /\ significance p fc adj lfc = "up")
  \/ (cond_up p fc adj lfc = false /\ cond_down p fc adj lfc = true
      /\ significance p fc adj lfc = "down")
  \/ (cond_up p fc adj lfc = false /\ cond_down p fc adj lfc = false
      /\ significance p fc adj lfc = "ns").
Proof.
  unfold significance.
  destruct (cond_up p fc adj lfc); [auto|].
  destruct (cond_down p fc adj lfc); auto.
Qed.






End ClassifierFacts.

(** ** Multiple-testing correction *)

Section CorrectionFacts.

Import Pandas Correction.
Local Open Scope Q_scope.

Lemma of_nat_le (a b : nat) : (a <= b)%nat -> of_nat a <= of_nat b.
Proof.
  intros H. unfold of_nat. rewrite <- Zle_Qle. lia.
Qed.

Lemma of_nat_pos (k : nat) : (1 <= k)%nat -> 0 < of_nat k.
Proof.
  intros H. unfold of_nat. change 0 with (inject_Z 0). rewrite <- Zlt_Qlt. lia.
Qed.

Lemma scaled_nonneg (p m : Q) (k : nat) :
  0 <= p -> 0 <= m -> (1 <= k)%nat -> 0 <= p * m / of_nat k.
Proof.
  intros Hp Hm Hk. apply Qle_shift_div_l; [apply of_nat_pos; exact Hk|].
  nra.
Qed.

Lemma scaled_ge (p : Q) (n k : nat) :
  0 <= p -> (1 <= k <= n)%nat -> p <= p * of_nat n / of_nat k.
Proof.
  intros Hp [Hk Hn]. apply Qle_shift_div_l; [apply of_nat_pos; exact Hk|].
  assert (H := of_nat_le k n Hn). nra.
Qed.

Lemma scaled_mono (q p m : Q) (k k' : nat) :
  0 <= q -> q <= p -> 0 <= m -> (1 <= k <= k')%nat ->
  q * m / of_nat k' <= p * m / of_nat k.
Proof.
  intros Hq Hqp Hm [Hk Hk'].
  assert (Hpos : 0 < of_nat k) by (apply of_nat_pos; exact Hk).
  assert (Hpos' : 0 < of_nat k') by (apply of_nat_pos; lia).
  assert (Hle := of_nat_le k k' Hk').
  assert (Hz : 0 <= p * m / of_nat k) by (apply scaled_nonneg; auto; lra).
  assert (He : of_nat k * (p * m / of_nat k) == p * m).
  { apply Qmult_div_r. lra. }
  apply Qle_shift_div_r; [exact Hpos'|].
  set (z := p * m / of_nat k) in *. nra.
Qed.

Lemma insert_ranked_perm (x : nat * Q) (l : list (nat * Q)) :
  Permutation (insert_ranked x l) (x :: l).
Proof.
  induction l as [|y l IH]; simpl; [reflexivity|].
  destruct (Qle_bool (snd x) (snd y)); [reflexivity|].
  rewrite IH. apply perm_swap.
Qed.

Lemma insert_ranked_sorted (x : nat * Q) (l : list (nat * Q)) :
  StronglySorted by_p l -> StronglySorted by_p (insert_ranked x l).
Proof.
  induction l as [|y l IH]; simpl; intros Hs.
  - repeat constructor.
  - inversion Hs as [|? ? Hs' Hall]; subst.
    destruct (Qle_bool (snd x) (snd y)) eqn:E.
    + apply Qle_bool_iff in E. constructor; [exact Hs|].
      constructor; [exact E|].
      eapply Forall_impl; [|exact Hall].
      intros z Hz. unfold by_p in *. lra.
    + assert (Hyx : snd y <= snd x).
      { destruct (Qlt_le_dec (snd y) (snd x)) as [H|H]; [lra|].
        apply Qle_bool_iff in H. congruence. }
      constructor; [apply IH; exact Hs'|].
      eapply Permutation_Forall.
      * symmetry. apply insert_ranked_perm.
      * constructor; [exact Hyx | exact Hall].
Qed.

Lemma argsort_perm (ps : list Q) : Permutation (argsort ps) (enumerate ps).
Proof.
  unfold argsort. induction (enumerate ps) as [|x l IH]; simpl; [reflexivity|].
  rewrite insert_ranked_perm. constructor. exact IH.
Qed.

Lemma argsort_sorted (ps : list Q) : StronglySorted by_p (argsort ps).
Proof.
  unfold argsort. induction (enumerate ps) as [|x l IH]; simpl.
  - constructor.
  - apply insert_ranked_sorted. exact IH.
Qed.

Lemma enumerate_fst (ps : list Q) : map fst (enumerate ps) = seq 0 (List.length ps).
Proof.
  unfold enumerate. generalize 0%nat.
  induction ps as [|p ps IH]; intros s; simpl; [reflexivity|].
  f_equal. apply IH.
Qed.

Lemma enumerate_nth (ps : list Q) (i : nat) (p : Q) :
  nth_error ps i = Some p -> In (i, p) (enumerate ps).
Proof.
  unfold enumerate.
  assert (H : forall s, nth_error ps i = Some p ->
                        In ((s + i)%nat, p) (combine (seq s (List.length ps)) ps)).
  { revert i. induction ps as [|q ps IH]; intros i s Hn.
    - destruct i; discriminate.
    - destruct i as [|i]; simpl in *.
      + inversion Hn; subst. left. f_equal. lia.
      + right. replace (s + S i)%nat with (S s + i)%nat by lia. apply IH. exact Hn. }
  intros Hn. apply (H 0%nat Hn).
Qed.

Lemma adjusted_running_min (m : Q) (k : nat) (l : list (nat * Q)) :
  running_min_from_end (scale m k l)
  = map (fun t => (fst (fst t), snd t)) (adjusted m k l).
Proof.
  revert k. induction l as [|[j p] t IH]; intros k; simpl; [reflexivity|].
  rewrite IH. destruct (adjusted m (S k) t) as [|[[j' p'] w] rest]; reflexivity.
Qed.

Lemma adjusted_fst (m : Q) (k : nat) (l : list (nat * Q)) :
  map fst (adjusted m k l) = l.
Proof.
  revert k. induction l as [|[j p] t IH]; intros k; simpl; [reflexivity|].
  f_equal. apply IH.
Qed.

Lemma adjusted_invariant (n : nat) (l : list (nat * Q)) (k : nat) :
  StronglySorted by_p l ->
  Forall (fun x => 0 <= snd x) l ->
  (1 <= k)%nat -> (k + List.length l <= S n)%nat ->
  Forall (fun t => raw t <= adj t /\ adj t <= raw t * of_nat n / of_nat k)
         (adjusted (of_nat n) k l)
  /\ ForallOrdPairs ordered (adjusted (of_nat n) k l).
Proof.
  revert k. induction l as [|[j p] t IH]; intros k Hs Hp Hk Hlen; simpl.
  - split; constructor.
  - inversion Hs as [|? ? Hs' Hall]; subst.
    inversion Hp as [|? ? Hp0 Hp']; subst. simpl in Hp0, Hlen.
    destruct (IH (S k) Hs' Hp' ltac:(lia) ltac:(lia)) as [IHa IHb].
    assert (Hn0 : 0 <= of_nat n) by (change 0 with (of_nat 0); apply of_nat_le; lia).
    assert (Hself : p <= p * of_nat n / of_nat k) by (apply scaled_ge; [exact Hp0 | lia]).
    assert (Hraw : Forall (fun y => p <= raw y /\ 0 <= raw y) (adjusted (of_nat n) (S k) t)).
    { rewrite Forall_forall. intros [[j' p'] w] Hin.
      assert (Hin' : In (j', p') t).
      { rewrite <- (adjusted_fst (of_nat n) (S k) t).
        apply in_map_iff. exists (j', p', w). auto. }
      rewrite Forall_forall in Hall, Hp'.
      specialize (Hall _ Hin'). specialize (Hp' _ Hin').
      unfold by_p, raw in *. simpl in *. lra. }
    set (rest := adjusted (of_nat n) (S k) t) in *.
    set (a := match rest with
              | [] => p * of_nat n / of_nat k
              | (_, w) :: _ => Qmin (p * of_nat n / of_nat k) w
              end).
    assert (Ha_le : a <= p * of_nat n / of_nat k).
    { unfold a. destruct rest as [|[[j' p'] w] r]; [lra | apply Q.le_min_l]. }
    assert (Ha_ge : p <= a).
    { unfold a. destruct rest as [|[[j' p'] w] r]; [exact Hself|].
      apply Q.min_glb; [exact Hself|].
      inversion IHa as [|? ? [H1 _] _]; subst.
      inversion Hraw as [|? ? [H2 _] _]; subst.
      unfold raw, adj in *. simpl in *. lra. }
    assert (Ha_rest : Forall (fun y => a <= adj y) rest).
    { unfold a. destruct rest as [|[[j' p'] w] r]; [constructor|].
      constructor.
      - unfold adj. simpl. apply Q.le_min_r.
      - inversion IHb as [|? ? Hhd _]; subst.
        eapply Forall_impl; [|exact Hhd].
        intros y [Hy _]. unfold adj in *. simpl in *.
        assert (H := Q.le_min_r (p * of_nat n / of_nat k) w). lra. }
    split.
    + constructor.
      * unfold raw, adj. simpl. fold rest. fold a. split; assumption.
      * rewrite Forall_forall in IHa, Hraw |- *. intros y Hy.
        destruct (IHa y Hy) as [H1 H2]. destruct (Hraw y Hy) as [H3 H4].
        split; [exact H1|].
        assert (H := scaled_mono (raw y) (raw y) (of_nat n) k (S k) H4
                       ltac:(lra) Hn0 ltac:(lia)).
        lra.
    + constructor; [|exact IHb].
      rewrite Forall_forall in IHa, Hraw, Ha_rest |- *. intros y Hy.
      unfold ordered. unfold adj at 1 4, raw at 2. simpl. fold rest. fold a.
      split; [apply Ha_rest; exact Hy|].
      intros Hyp.
      destruct (IHa y Hy) as [H1 H2]. destruct (Hraw y Hy) as [H3 H4].
      assert (Hsc := scaled_mono (raw y) p (of_nat n) k (S k) H4 Hyp Hn0 ltac:(lia)).
      unfold a. destruct rest as [|[[j' p'] w] r] eqn:Hrest; [contradiction|].
      apply Q.min_glb; [lra|].
      destruct Hy as [Hy|Hy].
      * subst y. unfold adj. simpl. lra.
      * inversion IHb as [|? ? Hhd _]; subst.
        rewrite Forall_forall in Hhd. destruct (Hhd y Hy) as [_ Hback].
        unfold raw, adj in *. simpl in *. apply Hback.
        assert (Hp'w := Hraw (j', p', w) (or_introl eq_refl)).
        simpl in Hp'w. lra.
Qed.

Lemma value_at_In (i : nat) (a : Q) (l : list (nat * Q)) :
  NoDup (map fst l) -> In (i, a) l -> value_at i l = a.
Proof.
  induction l as [|[j v] l IH]; simpl; intros Hnd Hin; [contradiction|].
  inversion Hnd as [|? ? Hnot Hnd']; subst.
  destruct Hin as [Hin|Hin].
  - inversion Hin; subst. rewrite Nat.eqb_refl. reflexivity.
  - destruct (j =? i)%nat eqn:E; [|auto].
    apply Nat.eqb_eq in E. subst j. exfalso. apply Hnot.
    apply in_map_iff. exists (i, a). auto.
Qed.

Lemma clip01_range (x : Q) : 0 <= clip01 x <= 1.
Proof.
  unfold clip01. split.
  - apply Q.min_glb; [apply Q.le_max_r | lra].
  - apply Q.le_min_r.
Qed.

Lemma clip01_mono (x y : Q) : x <= y -> clip01 x <= clip01 y.
Proof.
  intros H. unfold clip01. apply Q.min_le_compat_r. apply Q.max_le_compat_r. exact H.
Qed.

Lemma clip01_above (p x : Q) : p <= 1 -> p <= x -> p <= clip01 x.
Proof.
  intros H1 Hx. unfold clip01. apply Q.min_glb; [|exact H1].
  assert (H := Q.le_max_l x 0). lra.
Qed.

(** The value the correction returns at an input position is the clipped
    adjusted value of the entry of the sorted list that carries that
    position. *)
Lemma false_discovery_control_nth (ps : list Q) (i : nat) (p : Q) :
  nth_error ps i = Some p ->
  exists a,
    In (i, p, a) (adjusted (of_nat (List.length ps)) 1 (argsort ps))
    /\ nth i (false_discovery_control ps) 0 = clip01 a.
Proof.
  intros Hn. set (n := List.length ps).
  assert (Hi : (i < n)%nat) by (apply nth_error_Some; congruence).
  assert (Hin : In (i, p) (argsort ps)).
  { apply (Permutation_in _ (Permutation_sym (argsort_perm ps))).
    apply enumerate_nth. exact Hn. }
  rewrite <- (adjusted_fst (of_nat n) 1 (argsort ps)) in Hin.
  apply in_map_iff in Hin. destruct Hin as [[[i' p'] a] [E Hin]].
  simpl in E. inversion E; subst i' p'. exists a. split; [exact Hin|].
  unfold false_discovery_control, put_back. fold n.
  rewrite adjusted_running_min.
  rewrite map_map.
  set (h := fun x : nat => clip01 (value_at x
    (map (fun t : nat * Q * Q => (fst (fst t), snd t)) (adjusted (of_nat n) 1 (argsort ps))))).
  rewrite (nth_indep _ 0 (h 0%nat)) by (rewrite length_map, length_seq; exact Hi).
  rewrite (map_nth h).
  rewrite seq_nth by exact Hi. unfold h. simpl. f_equal.
  apply value_at_In.
  - rewrite map_map. simpl. rewrite <- (map_map fst fst), adjusted_fst.
    apply (Permutation_NoDup (Permutation_sym (Permutation_map fst (argsort_perm ps)))).
    rewrite enumerate_fst. apply seq_NoDup.
  - apply in_map_iff. exists (i, p, a). auto.
Qed.

Lemma argsort_invariant (ps : list Q) :
  Forall (fun p => 0 <= p <= 1) ps ->
  let T := adjusted (of_nat (List.length ps)) 1 (argsort ps) in
  Forall (fun t => raw t <= adj t) T /\ ForallOrdPairs ordered T.
Proof.
  intros Hps T.
  assert (Hlen : List.length (argsort ps) = List.length ps).
  { rewrite (Permutation_length (argsort_perm ps)). unfold enumerate.
    rewrite length_combine, length_seq. apply Nat.min_id. }
  assert (Hnn : Forall (fun x : nat * Q => 0 <= snd x) (argsort ps)).
  { eapply Permutation_Forall; [symmetry; apply argsort_perm|].
    rewrite Forall_forall in Hps |- *. intros [i p] Hin. simpl.
    apply in_combine_r in Hin. apply Hps in Hin. lra. }
  destruct (adjusted_invariant (List.length ps) (argsort ps) 1
              (argsort_sorted ps) Hnn ltac:(lia) ltac:(lia)) as [Ha Hb].
  split; [|exact Hb].
  eapply Forall_impl; [|exact Ha]. intros t [H _]. exact H.
Qed.

(** C4.  On p-values in [0, 1] the correction (the Benjamini-Hochberg
    procedure of section 4.4: ranks from an ascending sort of the input,
    [p_i * m / i], running minimum from the last rank, clipping) returns
    a list of the same length, in the order of the input; every adjusted
    value lies in [0, 1] and is at least the raw value at the same
    position; and the adjusted values follow the order of the raw
    values.  Both variants use this correction. *)
Theorem false_discovery_control_bh (ps : list Q) :
  Forall (fun p => 0 <= p <= 1) ps ->
  (Permutation (argsort ps) (enumerate ps) /\ StronglySorted by_p (argsort ps))
  /\ List.length (false_discovery_control ps) = List.length ps
  /\ Forall (fun a => 0 <= a <= 1) (false_discovery_control ps)
  /\ (forall i p, nth_error ps i = Some p ->
                  p <= nth i (false_discovery_control ps) 0)
  /\ (forall i j p q,
        nth_error ps i = Some p -> nth_error ps j = Some q -> p <= q ->
        nth i (false_discovery_control ps) 0 <= nth j (false_discovery_control ps) 0)
  /\ multipletests_fdr_bh ps = false_discovery_control ps.
Proof.
  intros Hps. destruct (argsort_invariant ps Hps) as [Hge Hord].
  split; [|split; [|split; [|split; [|split]]]].
  - split; [apply argsort_perm | apply argsort_sorted].
  - unfold false_discovery_control, put_back.
    rewrite !length_map, length_seq. reflexivity.
  - unfold false_discovery_control. rewrite Forall_forall. intros a Ha.
    apply in_map_iff in Ha. destruct Ha as [x [Hx _]]. subst a. apply clip01_range.
  - intros i p Hn.
    destruct (false_discovery_control_nth ps i p Hn) as [a [Hin Hnth]].
    rewrite Hnth. apply clip01_above.
    + rewrite Forall_forall in Hps. apply nth_error_In in Hn. apply Hps in Hn. lra.
    + rewrite Forall_forall in Hge. apply (Hge _ Hin).
  - intros i j p q Hi Hj Hpq.
    destruct (false_discovery_control_nth ps i p Hi) as [a [Hina Ha]].
    destruct (false_discovery_control_nth ps j q Hj) as [b [Hinb Hb]].
    rewrite Ha, Hb. apply clip01_mono.
    destruct (ForallOrdPairs_In Hord _ _ Hina Hinb) as [E|[[H _]|[_ H]]].
    + inversion E; subst. lra.
    + exact H.
    + apply H. exact Hpq.
  - reflexivity.
Qed.

Lemma false_discovery_control_bh_witness :
  nth 3 (false_discovery_control [1 # 100; 4 # 100; 3 # 100; 5 # 1000]) 0
  <= nth 0 (false_discovery_control [1 # 100; 4 # 100; 3 # 100; 5 # 1000]) 0.
Proof.
  assert (Hps : Forall (fun p => 0 <= p <= 1) [1 # 100; 4 # 100; 3 # 100; 5 # 1000]).
  { repeat constructor; simpl; discriminate. }
  apply (proj1 (proj2 (proj2 (proj2 (proj2
    (false_discovery_control_bh [1 # 100; 4 # 100; 3 # 100; 5 # 1000] Hps)))))
    3%nat 0%nat (5 # 1000) (1 # 100)).
  - reflexivity.
  - reflexivity.
  - discriminate.
Defined.

(** The worked run: ranks 0.005, 0.01, 0.03, 0.04 scale to 0.02, 0.02,
    0.04, 0.04, which come back in input order. *)
Example false_discovery_control_run :
  Forall2 Qeq (false_discovery_control [1 # 100; 4 # 100; 3 # 100; 5 # 1000])
              [2 # 100; 4 # 100; 4 # 100; 2 # 100].
Proof. repeat constructor. Qed.

End CorrectionFacts.

(** ** The two engines *)

Section EngineFacts.

Import Pandas Stratify Engine.
Local Open Scope string_scope.

Variable ttest_ind : list R -> list R -> option (R * Q).

Lemma mapM_Forall2 {A B : Type} (f : A -> result B) (l : list A) (bs : list B) :
  mapM f l = inr bs -> Forall2 (fun a b => f a = inr b) l bs.
Proof.
  revert bs. induction l as [|a l IH]; simpl; intros bs.
  - intros H. inversion H. constructor.
  - destruct (f a) as [e|b] eqn:Hf; simpl; [discriminate|].
    destruct (mapM f l) as [e|bs']; simpl; [discriminate|].
    intros H. inversion H; subst. constructor; auto.
Qed.

Lemma loc_samples_length (row : Series) (samples : list string) (vs : list Q) :
  loc_samples row samples = inr vs -> List.length vs = List.length samples.
Proof. apply mapM_length. Qed.

Lemma false_discovery_control_length (ps : list Q) :
  List.length (Correction.false_discovery_control ps) = List.length ps.
Proof.
  unfold Correction.false_discovery_control, Correction.put_back.
  rewrite !length_map, length_seq. reflexivity.
Qed.

(** What a successful run of the simple engine consists of. *)
Lemma simple_engine_table (expression_data : DataFrame) (design : Design)
    (table : list (string * DERow * Q)) :
  run_simple_differential_expression ttest_ind expression_data design = inr table ->
  exists results,
    Forall2 (fun r rec =>
               test_row ttest_ind
                 (samples_of design (nth 0 (unique (map snd design)) ""))
                 (samples_of design (nth 1 (unique (map snd design)) ""))
                 (snd r) = inr rec)
            expression_data results
    /\ table = combine (combine (index expression_data) results)
                       (Correction.multipletests_fdr_bh (map pvalue results)).
Proof.
  unfold run_simple_differential_expression.
  destruct (negb _); [discriminate|].
  destruct (mapM _ expression_data) as [e|results] eqn:Hm; simpl; [discriminate|].
  apply mapM_Forall2 in Hm.
  destruct results as [|r results]; [discriminate|].
  intros H. inversion H; subst. exists (r :: results). auto.
Qed.

Lemma combine_fst {A B : Type} (l : list A) (l' : list B) :
  List.length l = List.length l' -> map fst (combine l l') = l.
Proof.
  revert l'. induction l as [|a l IH]; intros [|b l'] H; simpl in *;
    try discriminate; [reflexivity|].
  f_equal. apply IH. lia.
Qed.

(** The table of the simple engine has one row per matrix row, in the
    order of the matrix. *)
Lemma simple_engine_index (expression_data : DataFrame) (design : Design)
    (table : list (string * DERow * Q)) :
  run_simple_differential_expression ttest_ind expression_data design = inr table ->
  map (fun e => fst (fst e)) table = index expression_data.
Proof.
  intros H. destruct (simple_engine_table _ _ _ H) as [results [HF Ht]]. subst table.
  assert (Hlen : List.length results = List.length expression_data).
  { symmetry. eapply Forall2_length; eauto. }
  rewrite <- (map_map fst fst).
  rewrite combine_fst.
  - apply combine_fst. unfold index. rewrite length_map. lia.
  - rewrite length_combine. unfold index, Correction.multipletests_fdr_bh.
    rewrite false_discovery_control_length, !length_map. lia.
Qed.

Lemma Forall2_combine_In {A B : Type} (R : A -> B -> Prop) (l : list A) (l' : list B)
    (a : A) (b : B) :
  Forall2 R l l' -> In (a, b) (combine l l') -> R a b.
Proof.
  induction 1 as [|x y l l' Hxy HF IH]; simpl; [contradiction|].
  intros [E|Hin]; [inversion E; subst; exact Hxy | auto].
Qed.

Lemma Forall2_index {A B : Type} (P : A -> B -> Prop) (d : list (string * A))
    (rs : list B) :
  Forall2 (fun r rec => P (snd r) rec) d rs ->
  Forall2 (fun g rec => exists row, In (g, row) d /\ P row rec) (index d) rs.
Proof.
  induction 1 as [|[g row] r l rs Hr HF IH]; simpl; constructor.
  - exists row. split; [left; reflexivity | exact Hr].
  - eapply Forall2_impl; [|exact IH].
    intros g' rec [row' [Hin Hp]]. exists row'. split; [right; exact Hin | exact Hp].
Qed.

(** Every row of that table is the test of the log-transformed slices of
    its gene, second label against first. *)
Lemma simple_engine_rows (expression_data : DataFrame) (design : Design)
    (table : list (string * DERow * Q)) (gene : string) (rec : DERow) (padj : Q) :
  run_simple_differential_expression ttest_ind expression_data design = inr table ->
  In (gene, rec, padj) table ->
  exists row, In (gene, row) expression_data /\
    test_row ttest_ind
      (samples_of design (nth 0 (unique (map snd design)) ""))
      (samples_of design (nth 1 (unique (map snd design)) ""))
      row = inr rec.
Proof.
  intros H Hin. destruct (simple_engine_table _ _ _ H) as [results [HF Ht]]. subst table.
  apply in_combine_l in Hin.
  apply (Forall2_index (fun row rec =>
           test_row ttest_ind
             (samples_of design (nth 0 (unique (map snd design)) ""))
             (samples_of design (nth 1 (unique (map snd design)) ""))
             row = inr rec)) in HF.
  exact (Forall2_combine_In _ _ _ _ _ HF Hin).
Qed.


Lemma try_test_record (gene_symbols : Resolver.GeneSymbolMap) (gene : string)
    (high low : list R) (r : WebRecord) :
  try_test ttest_ind gene_symbols gene high low = Some r ->
  gene_id r = gene
  /\ (exists st, ttest_ind high low = Some (st, p_value r))
  /\ log2_fold_change r = log2 ((mean high + / 1000000) / (mean low + / 1000000))%R.
Proof.
  unfold try_test. destruct (ttest_ind high low) as [[st pval]|]; [|discriminate].
  intros H. inversion H; subst; simpl. eauto.
Qed.

(** Every record of the web app's engine is the test of the untransformed
    slices of its gene, both of at least three values. *)
Lemma web_engine_records (gene_symbols : Resolver.GeneSymbolMap)
    (expression_data : DataFrame) (high_samples low_samples : list string)
    (records : list WebRecord) (r : WebRecord) :
  run_differential_expression ttest_ind gene_symbols expression_data
    high_samples low_samples = inr records ->
  In r records ->
  exists row high low,
    In (gene_id r, row) expression_data
    /\ loc_samples row high_samples = inr high
    /\ loc_samples row low_samples = inr low
    /\ (3 <= List.length high)%nat /\ (3 <= List.length low)%nat
    /\ try_test ttest_ind gene_symbols (gene_id r) (to_R high) (to_R low) = Some r.
Proof.
  revert records. induction expression_data as [|[gene row] rest IH]; simpl; intros records.
  - intros H. inversion H; subst. contradiction.
  - destruct (loc_samples row high_samples) as [e|high] eqn:Hh; simpl; [discriminate|].
    destruct (loc_samples row low_samples) as [e|low] eqn:Hl; simpl; [discriminate|].
    destruct (run_differential_expression ttest_ind gene_symbols rest
                high_samples low_samples) as [e|results]; simpl; [discriminate|].
    assert (Hrest : In r results ->
      exists row0 high0 low0,
        ((gene, row) = (gene_id r, row0) \/ In (gene_id r, row0) rest)
        /\ loc_samples row0 high_samples = inr high0
        /\ loc_samples row0 low_samples = inr low0
        /\ (3 <= List.length high0)%nat /\ (3 <= List.length low0)%nat
        /\ try_test ttest_ind gene_symbols (gene_id r) (to_R high0) (to_R low0) = Some r).
    { intros Hin. destruct (IH results eq_refl Hin) as [row0 [h0 [l0 [H0 H1]]]].
      exists row0, h0, l0. split; [right; exact H0 | exact H1]. }
    destruct ((List.length high <? 3)%nat || (List.length low <? 3)%nat) eqn:Hsmall.
    + intros H. inversion H; subst. exact Hrest.
    + apply orb_false_iff in Hsmall. destruct Hsmall as [S1 S2].
      apply Nat.ltb_ge in S1. apply Nat.ltb_ge in S2.
      destruct (try_test ttest_ind gene_symbols gene (to_R high) (to_R low))
        as [r0|] eqn:Ht; intros H; inversion H; subst; [|exact Hrest].
      intros [E|Hin]; [|exact (Hrest Hin)].
      subst r0. destruct (try_test_record _ _ _ _ _ Ht) as [Hg _].
      exists row, high, low. rewrite Hg. repeat split; auto.
Qed.

(** With a group of fewer than three samples the engine skips every
    gene. *)
Lemma web_engine_small_groups (gene_symbols : Resolver.GeneSymbolMap)
    (expression_data : DataFrame) (high_samples low_samples : list string)
    (records : list WebRecord) :
  (List.length high_samples < 3 \/ List.length low_samples < 3)%nat ->
  run_differential_expression ttest_ind gene_symbols expression_data
    high_samples low_samples = inr records ->
  records = [].
Proof.
  intros Hsmall Hrun. destruct records as [|r records]; [reflexivity|]. exfalso.
  destruct (web_engine_records _ _ _ _ _ r Hrun (or_introl eq_refl))
    as [row [high [low [_ [Hh [Hl [H3 [H3' _]]]]]]]].
  apply loc_samples_length in Hh. apply loc_samples_length in Hl. lia.
Qed.


(** The engine records every gene when both groups have three samples or
    more, the test returns on every pair of slices and every row has the
    samples of the two groups. *)
Lemma web_engine_all_genes (gene_symbols : Resolver.GeneSymbolMap)
    (expression_data : DataFrame) (high_samples low_samples : list string) :
  (3 <= List.length high_samples)%nat -> (3 <= List.length low_samples)%nat ->
  (forall a b, ttest_ind a b <> None) ->
  (forall gene row, In (gene, row) expression_data ->
     exists high low, loc_samples row high_samples = inr high
                      /\ loc_samples row low_samples = inr low) ->
  exists records,
    run_differential_expression ttest_ind gene_symbols expression_data
      high_samples low_samples = inr records
    /\ map gene_id records = index expression_data.
Proof.
  intros H3 L3 Htest.
  induction expression_data as [|[gene row] rest IH]; intros Hrows; simpl.
  - exists []. auto.
  - destruct (Hrows gene row (or_introl eq_refl)) as [high [low [Hh Hl]]].
    rewrite Hh, Hl. simpl.
    destruct IH as [records [Hrun Hidx]].
    { intros g r Hin. apply (Hrows g r). right. exact Hin. }
    rewrite Hrun. simpl.
    apply loc_samples_length in Hh. apply loc_samples_length in Hl.
    replace (List.length high <? 3)%nat with false by (symmetry; apply Nat.ltb_ge; lia).
    replace (List.length low <? 3)%nat with false by (symmetry; apply Nat.ltb_ge; lia).
    simpl.
    destruct (try_test ttest_ind gene_symbols gene (to_R high) (to_R low)) as [r|] eqn:Ht.
    + exists (r :: records). split; [reflexivity|]. simpl.
      destruct (try_test_record _ _ _ _ _ Ht) as [Hg _]. rewrite Hg, Hidx. reflexivity.
    + exfalso. unfold try_test in Ht.
      destruct (ttest_ind (to_R high) (to_R low)) as [[st pval]|] eqn:E; [discriminate|].
      exact (Htest _ _ E).
Qed.


(** X24.  A gene whose test returns is recorded, whatever its values. *)
Lemma web_engine_keeps_returning (gene_symbols : Resolver.GeneSymbolMap)
    (expression_data : DataFrame) (gene : string) (row : Series)
    (high_samples low_samples : list string) (high low : list Q)
    (records : list WebRecord) (st : R) (pval : Q) :
  run_differential_expression ttest_ind gene_symbols expression_data
    high_samples low_samples = inr records ->
  In (gene, row) expression_data ->
  loc_samples row high_samples = inr high ->
  loc_samples row low_samples = inr low ->
  (3 <= List.length high)%nat -> (3 <= List.length low)%nat ->
  ttest_ind (to_R high) (to_R low) = Some (st, pval) ->
  exists r, In r records /\ gene_id r = gene /\ p_value r = pval.
Proof.
  intros Hrun Hin Hh Hl H3 L3 Ht. revert records Hrun.
  induction expression_data as [|[g r0] rest IH]; intros records; simpl in *; [contradiction|].
  destruct (loc_samples r0 high_samples) as [e|high0] eqn:Hh0; simpl; [discriminate|].
  destruct (loc_samples r0 low_samples) as [e|low0] eqn:Hl0; simpl; [discriminate|].
  destruct (run_differential_expression ttest_ind gene_symbols rest
              high_samples low_samples) as [e|results]; simpl; [discriminate|].
  destruct Hin as [E|Hin].
  - inversion E; subst g r0. rewrite Hh in Hh0. rewrite Hl in Hl0.
    inversion Hh0; subst high0. inversion Hl0; subst low0.
    replace (List.length high <? 3)%nat with false by (symmetry; apply Nat.ltb_ge; lia).
    replace (List.length low <? 3)%nat with false by (symmetry; apply Nat.ltb_ge; lia).
    simpl. unfold try_test. rewrite Ht.
    intros H. inversion H; subst. eexists. split; [left; reflexivity|]. simpl. auto.
  - destruct (IH Hin results eq_refl) as [r [Hr Hg]].
    match goal with
    | |- inr (match ?t with _ => _ end) = _ -> _ => destruct t
    end; intros H; inversion H; subst; exists r; split; auto.
    right. exact Hr.
Qed.

Lemma test_row_record (g1 g2 : list string) (row : Series) (rec : DERow) :
  test_row ttest_ind g1 g2 row = inr rec ->
  exists expr1 expr2,
    loc_samples row g1 = inr expr1 /\ loc_samples row g2 = inr expr2
    /\ ttest_ind (map log2p1 expr2) (map log2p1 expr1) = Some (stat rec, pvalue rec)
    /\ log2FoldChange rec = (mean (map log2p1 expr2) - mean (map log2p1 expr1))%R.
Proof.
  unfold test_row.
  destruct (loc_samples row g1) as [e|expr1]; simpl; [discriminate|].
  destruct (loc_samples row g2) as [e|expr2]; simpl; [discriminate|].
  destruct (ttest_ind (map log2p1 expr2) (map log2p1 expr1)) as [[st pval]|] eqn:Ht;
    [|discriminate].
  intros H. inversion H; subst; simpl. exists expr1, expr2. auto.
Qed.

(** C1, amended.  In the enhanced variant every row of the table comes
    from the t-test of the two slices of its gene after [log2(x + 1)],
    second distinct label of the condition column against the first, and
    its fold change is the mean of the transformed second slice minus the
    mean of the transformed first slice.  In the web app every record
    comes from the t-test of the untransformed high and low slices, and
    its fold change is [log2((mean(high) + 1e-6) / (mean(low) + 1e-6))]. *)
Theorem fold_change_formulas :
  (forall expression_data design table gene rec padj,
     run_simple_differential_expression ttest_ind expression_data design = inr table ->
     In (gene, rec, padj) table ->
     exists row expr1 expr2,
       In (gene, row) expression_data
       /\ loc_samples row (samples_of design (nth 0 (unique (map snd design)) ""))
          = inr expr1
       /\ loc_samples row (samples_of design (nth 1 (unique (map snd design)) ""))
          = inr expr2
       /\ ttest_ind (map log2p1 expr2) (map log2p1 expr1) = Some (stat rec, pvalue rec)
       /\ log2FoldChange rec
          = (mean (map log2p1 expr2) - mean (map log2p1 expr1))%R)
  /\ (forall gene_symbols expression_data high_samples low_samples records r,
        run_differential_expression ttest_ind gene_symbols expression_data
          high_samples low_samples = inr records ->
        In r records ->
        exists row high low,
          In (gene_id r, row) expression_data
          /\ loc_samples row high_samples = inr high
          /\ loc_samples row low_samples = inr low
          /\ (exists st, ttest_ind (to_R high) (to_R low) = Some (st, p_value r))
          /\ log2_fold_change r
             = log2 ((mean (to_R high) + / 1000000) / (mean (to_R low) + / 1000000))%R).
Proof.
  split.
  - intros expression_data design table gene rec padj Hrun Hin.
    destruct (simple_engine_rows _ _ _ _ _ _ Hrun Hin) as [row [Hrow Htest]].
    destruct (test_row_record _ _ _ _ Htest) as [expr1 [expr2 H]].
    exists row, expr1, expr2. tauto.
  - intros gene_symbols expression_data high_samples low_samples records r Hrun Hin.
    destruct (web_engine_records _ _ _ _ _ _ Hrun Hin)
      as [row [high [low [Hrow [Hh [Hl [_ [_ Ht]]]]]]]].
    destruct (try_test_record _ _ _ _ _ Ht) as [_ [Hst Hfc]].
    exists row, high, low. tauto.
Qed.

Lemma insert_by_adj_In (x y : WebApp.WebResult) (l : list WebApp.WebResult) :
  In y (WebApp.insert_by_adj x l) -> y = x \/ In y l.
Proof.
  induction l as [|z l IH]; simpl.
  - intros [H|[]]; auto.
  - destruct (Qle_bool _ _); simpl.
    + intros [H|[H|H]]; auto.
    + intros [H|H]; auto. destruct (IH H); auto.
Qed.

Lemma insert_by_adj_sorted (x : WebApp.WebResult) (l : list WebApp.WebResult) :
  StronglySorted WebApp.by_adj l -> StronglySorted WebApp.by_adj (WebApp.insert_by_adj x l).
Proof.
  induction l as [|y l IH]; simpl; intros Hs.
  - repeat constructor.
  - inversion Hs as [|? ? Hs' Hall]; subst.
    destruct (Qle_bool (WebApp.adj_p_value x) (WebApp.adj_p_value y)) eqn:E.
    + apply Qle_bool_iff in E. constructor; [exact Hs|].
      constructor; [exact E|].
      eapply Forall_impl; [|exact Hall].
      intros z Hz. unfold WebApp.by_adj in *. lra.
    + assert (Hyx : WebApp.by_adj y x).
      { unfold WebApp.by_adj.
        destruct (Qlt_le_dec (WebApp.adj_p_value y) (WebApp.adj_p_value x)) as [H|H]; [lra|].
        apply Qle_bool_iff in H. congruence. }
      constructor; [apply IH; exact Hs'|].
      rewrite Forall_forall in Hall |- *. intros z Hz.
      apply insert_by_adj_In in Hz. destruct Hz as [Hz|Hz]; [subst z; exact Hyx | auto].
Qed.

Lemma sort_values_sorted (l : list WebApp.WebResult) :
  StronglySorted WebApp.by_adj (WebApp.sort_values l).
Proof.
  unfold WebApp.sort_values. induction l as [|x l IH]; simpl.
  - constructor.
  - apply insert_by_adj_sorted. exact IH.
Qed.

(** C9, amended.  The table the web app stores after the correction is
    in ascending order of adjusted p-value; the table the enhanced
    variant's engine returns is in the row order of the expression
    matrix. *)
Theorem result_table_order :
  (forall gene_symbols expression_data target p_threshold fc_threshold method
          high_threshold low_threshold de_results,
     WebApp.analysis_section ttest_ind gene_symbols expression_data target
       p_threshold fc_threshold method high_threshold low_threshold
     = WebApp.AnalysisComplete de_results ->
     StronglySorted WebApp.by_adj de_results)
  /\ (forall expression_data design table,
        run_simple_differential_expression ttest_ind expression_data design = inr table ->
        map (fun e => fst (fst e)) table = index expression_data).
Proof.
  split; [|apply simple_engine_index].
  intros gene_symbols expression_data target p_threshold fc_threshold method
         high_threshold low_threshold de_results.
  unfold WebApp.analysis_section.
  destruct (Resolver.find_target_gene _ _ _) as [key|]; [|discriminate].
  destruct (group_samples _ _ _ _) as [e|[high low]];
    cbv beta iota delta [bind fst snd]; [discriminate|].
  unfold WebApp.analyse_groups.
  destruct (run_differential_expression _ _ _ _ _) as [e|[|r records]];
    cbv beta iota delta [bind]; try discriminate.
  intros H.
  assert (Hinj : forall t t' : list WebApp.WebResult,
            WebApp.AnalysisComplete t = WebApp.AnalysisComplete t' -> t = t')
    by (intros t t' E; congruence).
  apply Hinj in H. rewrite <- H. apply sort_values_sorted.
Qed.

(** C2, amended.  [group_samples] returns the two groups of a median or
    quartile split whatever their sizes.  When one of them has fewer than
    three samples, the rest of the web app's analysis yields no table;
    when both have three or more, the test returns on every pair of
    slices and every row has the samples, every gene is tested. *)
Theorem group_size_guard (gene_symbols : Resolver.GeneSymbolMap)
    (expression_data : DataFrame) (key : string) (row : Series) (method : string)
    (p_threshold : Q) (fc_threshold : R) :
  loc expression_data key = inr row ->
  method = "Median split" \/ method = "Quartile split (top 25% vs bottom 25%)" ->
  exists high low,
    group_samples module_globals expression_data key method = inr (high, low)
    /\ ((List.length high < 3 \/ List.length low < 3)%nat ->
        forall table,
          WebApp.analyse_groups ttest_ind gene_symbols expression_data
            p_threshold fc_threshold high low <> inr table)
    /\ ((3 <= List.length high)%nat -> (3 <= List.length low)%nat ->
        (forall a b, ttest_ind a b <> None) ->
        (forall gene r, In (gene, r) expression_data ->
           exists h l, loc_samples r high = inr h /\ loc_samples r low = inr l) ->
        exists records,
          run_differential_expression ttest_ind gene_symbols expression_data high low
          = inr records
          /\ map gene_id records = index expression_data).
Proof.
  intros Hloc Hmethod.
  assert (Hgroups : exists high low,
            group_samples module_globals expression_data key method = inr (high, low)).
  { unfold group_samples. rewrite Hloc. destruct Hmethod as [-> | ->]; simpl; eauto. }
  destruct Hgroups as [high [low Hg]]. exists high, low.
  split; [exact Hg|]. split.
  - intros Hsmall table. unfold WebApp.analyse_groups.
    destruct (run_differential_expression ttest_ind gene_symbols expression_data high low)
      as [e|records] eqn:Hrun; cbv beta iota delta [bind]; [discriminate|].
    rewrite (web_engine_small_groups _ _ _ _ _ Hsmall Hrun). discriminate.
  - intros H3 L3 Htest Hrows. apply web_engine_all_genes; assumption.
Qed.


End EngineFacts.

Section EngineExamples.

Import Pandas Stratify Engine Samples.
Local Open Scope string_scope.




Lemma log2_pow2 (n : nat) : log2 (2 ^ n) = INR n.
Proof.
  unfold log2. rewrite ln_pow by lra.
  assert (H := ln_lt_2). field. lra.
Qed.

Lemma log2_inv (x : R) (n : nat) : (0 < x)%R -> log2 x = INR n -> x = (2 ^ n)%R.
Proof.
  intros Hx H. rewrite <- log2_pow2 in H. unfold log2 in H.
  assert (H2 := ln_lt_2).
  apply ln_inv; [exact Hx | apply pow_lt; lra |].
  apply (Rmult_eq_reg_r (/ ln 2)); [exact H|].
  apply Rinv_neq_0_compat. lra.
Qed.

Lemma Q2R_Z (z : Z) : Q2R (inject_Z z) = IZR z.
Proof. unfold Q2R. simpl. field. Qed.


Lemma log2p1_values :
  log2p1 0 = 0%R /\ log2p1 1 = 1%R /\ log2p1 3 = 2%R
  /\ log2p1 7 = 3%R /\ log2p1 15 = 4%R /\ log2p1 31 = 5%R.
Proof.
  unfold log2p1.
  change 0%Q with (inject_Z 0). change 1%Q with (inject_Z 1).
  change 3%Q with (inject_Z 3). change 7%Q with (inject_Z 7).
  change 15%Q with (inject_Z 15). change 31%Q with (inject_Z 31).
  rewrite !Q2R_Z.
  replace (0 + 1)%R with (2 ^ 0)%R by lra.
  replace (1 + 1)%R with (2 ^ 1)%R by lra.
  replace (3 + 1)%R with (2 ^ 2)%R by lra.
  replace (7 + 1)%R with (2 ^ 3)%R by lra.
  replace (15 + 1)%R with (2 ^ 4)%R by lra.
  replace (31 + 1)%R with (2 ^ 5)%R by lra.
  rewrite !log2_pow2. simpl. repeat split; lra.
Qed.

(** The web app reports log2(17.67 / 1.33) = 3.73 for the gene "shifted",
    not the difference 4 - 1 = 3 of the means of the transformed
    slices. *)
Lemma web_fold_change_differs :
  ~ (forall ttest_ind records,
       run_differential_expression ttest_ind [] shifted_only
         ["s4"; "s5"; "s6"] ["s1"; "s2"; "s3"] = inr records ->
       Forall (fun r => log2_fold_change r
                        = (mean (map log2p1 [7; 15; 31]%Q)
                           - mean (map log2p1 [0; 1; 3]%Q))%R) records).
Proof.
  intros H.
  specialize (H (fun _ _ => Some (0%R, (1 # 2)%Q)) _ eq_refl).
  inversion H as [|r rs Hr _]; subst. clear H.
  simpl in Hr.
  destruct log2p1_values as [L0 [L1 [L3 [L7 [L15 L31]]]]].
  rewrite L0, L1, L3, L7, L15, L31 in Hr.
  unfold mean, total, to_R in Hr. simpl in Hr.
  change 0%Q with (inject_Z 0) in Hr. change 1%Q with (inject_Z 1) in Hr.
  change 3%Q with (inject_Z 3) in Hr. change 7%Q with (inject_Z 7) in Hr.
  change 15%Q with (inject_Z 15) in Hr. change 31%Q with (inject_Z 31) in Hr.
  rewrite !Q2R_Z in Hr.
  replace ((3 + (4 + (5 + 0))) / (1 + 1 + 1) - (0 + (1 + (2 + 0))) / (1 + 1 + 1))%R
    with (INR 3) in Hr by (simpl; lra).
  apply log2_inv in Hr.
  - simpl in Hr. 
    assert (Hd : ((0 + (1 + (3 + 0))) / (1 + 1 + 1) + / 1000000 <> 0)%R) by lra.
    apply (f_equal (fun x => (x * ((0 + (1 + (3 + 0))) / (1 + 1 + 1) + / 1000000))%R)) in Hr.
    unfold Rdiv in Hr at 1. rewrite Rmult_assoc, Rinv_l in Hr by exact Hd. lra.
  - apply Rdiv_lt_0_compat; lra.
Qed.


Lemma fold_change_formulas_witness :
  match run_differential_expression (fun _ _ => Some (0%R, (1 # 2)%Q)) [] shifted_only
          ["s4"; "s5"; "s6"] ["s1"; "s2"; "s3"] with
  | inr (r :: _) =>
      exists row high low,
        In (gene_id r, row) shifted_only
        /\ loc_samples row ["s4"; "s5"; "s6"] = inr high
        /\ loc_samples row ["s1"; "s2"; "s3"] = inr low
        /\ (exists st, Some (0%R, (1 # 2)%Q) = Some (st, p_value r))
        /\ log2_fold_change r
           = log2 ((mean (to_R high) + / 1000000) / (mean (to_R low) + / 1000000))%R
  | _ => False
  end.
Proof.
  destruct (run_differential_expression (fun _ _ => Some (0%R, (1 # 2)%Q)) [] shifted_only
              ["s4"; "s5"; "s6"] ["s1"; "s2"; "s3"]) as [e|[|r rs]] eqn:Hrun.
  - simpl in Hrun. discriminate Hrun.
  - simpl in Hrun. discriminate Hrun.
  - exact (proj2 (fold_change_formulas (fun _ _ => Some (0%R, (1 # 2)%Q)))
             [] shifted_only ["s4"; "s5"; "s6"] ["s1"; "s2"; "s3"] (r :: rs) r
             Hrun (or_introl eq_refl)).
Defined.

Lemma means_test_same (a : list R) : means_test a a = Some (0%R, 1%Q).
Proof.
  unfold means_test. destruct (Req_dec_T (mean a) (mean a)) as [_|n]; [reflexivity|].
  exfalso. apply n. reflexivity.
Qed.

Lemma means_test_differ (a b : list R) :
  mean a <> mean b -> means_test a b = Some (0%R, (2 # 100)%Q).
Proof.
  intros H. unfold means_test.
  destruct (Req_dec_T (mean a) (mean b)) as [e|_]; [contradiction|reflexivity].
Qed.

(** With a test that gives "flat" the p-value 1 and "shifted" the p-value
    0.02, the enhanced variant returns "flat" (adjusted 1) before
    "shifted" (adjusted 0.04). *)
Lemma simple_engine_not_sorted :
  ~ (forall ttest_ind table,
       run_simple_differential_expression ttest_ind two_genes low_high = inr table ->
       StronglySorted (fun x y => (snd x <= snd y)%Q) table).
Proof.
  intros H.
  assert (Hflat : test_row means_test ["s1"; "s2"; "s3"] ["s4"; "s5"; "s6"] (six 0 1 3 0 1 3)
                  = inr {| baseMean := mean (to_R [0; 1; 3; 0; 1; 3]%Q);
                           log2FoldChange := (mean (map log2p1 [0; 1; 3]%Q)
                                              - mean (map log2p1 [0; 1; 3]%Q))%R;
                           stat := 0; pvalue := 1 |}).
  { unfold test_row.
    change (loc_samples (six 0 1 3 0 1 3) ["s1"; "s2"; "s3"]) with (@inr exn _ [0; 1; 3]%Q).
    change (loc_samples (six 0 1 3 0 1 3) ["s4"; "s5"; "s6"]) with (@inr exn _ [0; 1; 3]%Q).
    cbv beta iota delta [bind]. rewrite means_test_same. reflexivity. }
  assert (Hshift : test_row means_test ["s1"; "s2"; "s3"] ["s4"; "s5"; "s6"] (six 0 1 3 7 15 31)
                  = inr {| baseMean := mean (to_R [0; 1; 3; 7; 15; 31]%Q);
                           log2FoldChange := (mean (map log2p1 [7; 15; 31]%Q)
                                              - mean (map log2p1 [0; 1; 3]%Q))%R;
                           stat := 0; pvalue := 2 # 100 |}).
  { unfold test_row.
    change (loc_samples (six 0 1 3 7 15 31) ["s1"; "s2"; "s3"]) with (@inr exn _ [0; 1; 3]%Q).
    change (loc_samples (six 0 1 3 7 15 31) ["s4"; "s5"; "s6"]) with (@inr exn _ [7; 15; 31]%Q).
    cbv beta iota delta [bind]. rewrite means_test_differ; [reflexivity|].
    simpl map. destruct log2p1_values as [L0 [L1 [L3 [L7 [L15 L31]]]]].
    rewrite L0, L1, L3, L7, L15, L31. unfold mean, total. simpl. lra. }
  assert (Hrun : exists r1 r2 a b,
    run_simple_differential_expression means_test two_genes low_high
    = inr [("flat", r1, a); ("shifted", r2, b)] /\ (b < a)%Q).
  { unfold run_simple_differential_expression, two_genes.
    change (negb (List.length (unique (map snd low_high)) =? 2)%nat) with false.
    cbv iota.
    change (samples_of low_high (nth 0 (unique (map snd low_high)) ""))
      with ["s1"; "s2"; "s3"].
    change (samples_of low_high (nth 1 (unique (map snd low_high)) ""))
      with ["s4"; "s5"; "s6"].
    cbv beta iota zeta delta [mapM bind snd].
    rewrite Hflat, Hshift. cbv beta iota.
    unfold index, Correction.multipletests_fdr_bh.
    cbv beta iota zeta delta [map fst pvalue].
    match goal with
    | |- context [Correction.false_discovery_control ?l] =>
        let v := eval vm_compute in (Correction.false_discovery_control l) in
        change (Correction.false_discovery_control l) with v
    end.
    cbv beta iota zeta delta [combine].
    do 4 eexists. split; [reflexivity|]. reflexivity. }
  destruct Hrun as [r1 [r2 [a [b [Hrun Hlt]]]]].
  specialize (H means_test _ Hrun).
  inversion H as [|? ? _ Hall]; subst.
  inversion Hall as [|? ? Hle _]; subst.
  simpl in Hle. revert Hle. apply Qlt_not_le. exact Hlt.
Qed.


(** A median split of four samples gives two groups of two, in both
    variants, without an error. *)
Lemma groups_of_two_are_returned :
  group_samples module_globals four_samples "G" "Median split"
  = inr (["s3"; "s4"], ["s1"; "s2"])
  /\ create_expression_groups [] four_samples "G" "Median split"
     = inr [("s1", "Low"); ("s2", "Low"); ("s3", "High"); ("s4", "High")].
Proof. split; reflexivity. Qed.

Lemma group_size_guard_witness :
  exists high low,
    group_samples module_globals four_samples "G" "Median split" = inr (high, low)
    /\ ((List.length high < 3 \/ List.length low < 3)%nat ->
        forall table,
          WebApp.analyse_groups constant_test [] four_samples (5 # 100) 1 high low
          <> inr table)
    /\ ((3 <= List.length high)%nat -> (3 <= List.length low)%nat ->
        (forall a b, constant_test a b <> None) ->
        (forall gene r, In (gene, r) four_samples ->
           exists h l, loc_samples r high = inr h /\ loc_samples r low = inr l) ->
        exists records,
          run_differential_expression constant_test [] four_samples high low
          = inr records
          /\ map gene_id records = index four_samples).
Proof.
  apply (group_size_guard constant_test [] four_samples "G"
           [("s1", 1%Q); ("s2", 2%Q); ("s3", 3%Q); ("s4", 4%Q)] "Median split"
           (5 # 100) 1).
  - reflexivity.
  - left. reflexivity.
Defined.

(** The quartile split of eight samples labels them Low, Medium and
    High. *)
Example quartile_split_three_labels :
  create_expression_groups [] eight_samples "G" "Quartile split" = inr quartile_design.
Proof. reflexivity. Qed.

Lemma simple_engine_two_groups_witness :
  Enhanced.differential_expression_section constant_test [] eight_samples "G" "Quartile split"
  = inl (ValueError "Simple DE requires exactly 2 groups").
Proof.
  unfold Enhanced.differential_expression_section.
  rewrite quartile_split_three_labels. cbv beta iota delta [bind].
  apply (proj2 (proj2 (simple_engine_two_groups constant_test eight_samples quartile_design)));
    simpl; tauto.
Defined.

Lemma result_table_order_witness :
  match WebApp.analysis_section constant_test [] two_genes "shifted" (5 # 100) 1
          "Median split" None None with
  | WebApp.AnalysisComplete de_results => StronglySorted WebApp.by_adj de_results
  | _ => False
  end
  /\ match run_simple_differential_expression constant_test two_genes low_high with
     | inr table => map (fun e => fst (fst e)) table = index two_genes
     | inl _ => False
     end.
Proof.
  split.
  - destruct (WebApp.analysis_section constant_test [] two_genes "shifted" (5 # 100) 1
                "Median split" None None) as [|e|de_results] eqn:Hrun.
    + discriminate Hrun.
    + discriminate Hrun.
    + exact (proj1 (result_table_order constant_test) _ _ _ _ _ _ _ _ _ Hrun).
  - destruct (run_simple_differential_expression constant_test two_genes low_high)
      as [e|table] eqn:Hrun.
    + discriminate Hrun.
    + exact (proj2 (result_table_order constant_test) _ _ _ Hrun).
Defined.

End EngineExamples.

(** ** Gene identifier conversion *)

Section GeneConversionFacts.

Import Pandas GeneConversion.
Local Open Scope string_scope.

Lemma firstn_plus {A : Type} (a b : nat) (l : list A) :
  firstn (a + b) l = (firstn a l ++ firstn b (skipn a l))%list.
Proof.
  revert l. induction a as [|a IH]; intros l; simpl; [reflexivity|].
  destruct l as [|x l]; simpl.
  - rewrite firstn_nil. reflexivity.
  - f_equal. apply IH.
Qed.

Lemma chunks_prefix (l : list string) (bs k : nat) :
  List.concat (map (fun i => slice l i bs) (map (fun j => j * bs)%nat (seq 0 k)))
  = firstn (k * bs) l.
Proof.
  induction k as [|k IH].
  - reflexivity.
  - rewrite seq_S, !map_app, concat_app, IH. simpl.
    rewrite app_nil_r. unfold slice.
    replace (bs + k * bs)%nat with (k * bs + bs)%nat by lia.
    symmetry. apply firstn_plus.
Qed.

Lemma ceil_covers (n bs : nat) : (0 < bs)%nat -> (n <= (n + bs - 1) / bs * bs)%nat.
Proof.
  intros Hbs.
  assert (H := Nat.div_mod_eq (n + bs - 1) bs).
  assert (Hm := Nat.mod_upper_bound (n + bs - 1) bs ltac:(lia)).
  nia.
Qed.

Lemma ceil_tight (n bs j : nat) :
  (0 < bs)%nat -> (j < (n + bs - 1) / bs)%nat -> (j * bs < n)%nat.
Proof.
  intros Hbs Hj.
  assert (H := Nat.div_mod_eq (n + bs - 1) bs).
  assert (Hm := Nat.mod_upper_bound (n + bs - 1) bs ltac:(lia)).
  nia.
Qed.

(** X1.  The batches of the conversion loop cut the list of identifiers into
    consecutive pieces: put end to end they give the list back, and each
    holds between 1 and [batch_size] identifiers. *)
Theorem batches_cover (clean_ids : list string) (batch_size : nat) :
  (0 < batch_size)%nat ->
  List.concat (batches clean_ids batch_size) = clean_ids
  /\ Forall (fun batch => (1 <= List.length batch <= batch_size)%nat)
            (batches clean_ids batch_size).
Proof.
  intros Hbs. unfold batches, range_step. split.
  - rewrite chunks_prefix. apply firstn_all2. apply ceil_covers. exact Hbs.
  - rewrite Forall_forall. intros batch Hin.
    apply in_map_iff in Hin. destruct Hin as [i [Hb Hi]]. subst batch.
    apply in_map_iff in Hi. destruct Hi as [j [Hi Hj]]. subst i.
    apply in_seq in Hj.
    assert (Hlt : (j * batch_size < List.length clean_ids)%nat)
      by (apply ceil_tight; lia).
    unfold slice. rewrite length_firstn, length_skipn. lia.
Qed.

Lemma batches_cover_witness :
  List.concat (batches ["a"; "b"; "c"; "d"; "e"] 2) = ["a"; "b"; "c"; "d"; "e"]
  /\ Forall (fun batch => (1 <= List.length batch <= 2)%nat)
            (batches ["a"; "b"; "c"; "d"; "e"] 2).
Proof. apply (batches_cover ["a"; "b"; "c"; "d"; "e"] 2). lia. Defined.


Lemma ceil_count (n bs : nat) :
  (0 < bs)%nat ->
  ((n + bs - 1) / bs = if (n mod bs =? 0)%nat then n / bs else n / bs + 1)%nat.
Proof.
  intros Hbs.
  assert (H := Nat.div_mod_eq n bs).
  assert (Hm := Nat.mod_upper_bound n bs ltac:(lia)).
  destruct (n mod bs =? 0)%nat eqn:E.
  - apply Nat.eqb_eq in E.
    symmetry. apply (Nat.div_unique (n + bs - 1) bs (n / bs) (bs - 1)); [lia | nia].
  - apply Nat.eqb_neq in E.
    symmetry. apply (Nat.div_unique (n + bs - 1) bs (n / bs + 1) (n mod bs - 1)); [lia | nia].
Qed.

(** X2.  The loop runs one batch fewer than the announced [num_batches] when
    the batch size divides the number of identifiers, and [num_batches]
    otherwise; every batch number stays within 1..[num_batches], so every
    progress value lies above 0.2 and at most at 0.9. *)
Theorem batch_progress (clean_ids : list string) (batch_size : nat) :
  (0 < batch_size)%nat ->
  List.length (batches clean_ids batch_size)
  = (if List.length clean_ids mod batch_size =? 0
     then num_batches clean_ids batch_size - 1
     else num_batches clean_ids batch_size)%nat
  /\ (forall i, In i (range_step (List.length clean_ids) batch_size) ->
        (1 <= batch_num i batch_size <= num_batches clean_ids batch_size)%nat
        /\ (2 # 10 < progress clean_ids batch_size i)%Q
        /\ (progress clean_ids batch_size i <= 9 # 10)%Q).
Proof.
  intros Hbs. split.
  - unfold batches, range_step, num_batches.
    rewrite !length_map, length_seq, (ceil_count _ _ Hbs).
    destruct (_ =? 0)%nat; lia.
  - intros i Hi. unfold range_step in Hi.
    apply in_map_iff in Hi. destruct Hi as [j [Hi Hj]]. subst i.
    apply in_seq in Hj.
    assert (Hb : batch_num (j * batch_size) batch_size = (j + 1)%nat).
    { unfold batch_num. rewrite Nat.div_mul by lia. reflexivity. }
    assert (Hn : (j + 1 <= num_batches clean_ids batch_size)%nat).
    { unfold num_batches. rewrite (ceil_count _ _ Hbs) in Hj.
      destruct (_ =? 0)%nat; lia. }
    unfold progress. rewrite Hb.
    set (N := num_batches clean_ids batch_size) in *.
    assert (HN : (0 < of_nat N)%Q).
    { unfold of_nat. change 0%Q with (inject_Z 0). rewrite <- Zlt_Qlt. lia. }
    assert (Hj1 : (0 < of_nat (j + 1))%Q).
    { unfold of_nat. change 0%Q with (inject_Z 0). rewrite <- Zlt_Qlt. lia. }
    assert (HjN : (of_nat (j + 1) <= of_nat N)%Q).
    { unfold of_nat. rewrite <- Zle_Qle. lia. }
    split; [lia|].
    assert (Hpos : (0 < (7 # 10) * of_nat (j + 1) / of_nat N)%Q).
    { apply Qlt_shift_div_l; [exact HN|]. nra. }
    assert (Hle : ((7 # 10) * of_nat (j + 1) / of_nat N <= 7 # 10)%Q).
    { apply Qle_shift_div_r; [exact HN|]. nra. }
    split; lra.
Qed.

Lemma batch_progress_witness :
  List.length (batches ["a"; "b"; "c"; "d"] 2)
  = (if List.length ["a"; "b"; "c"; "d"] mod 2 =? 0
     then num_batches ["a"; "b"; "c"; "d"] 2 - 1
     else num_batches ["a"; "b"; "c"; "d"] 2)%nat.
Proof. apply (batch_progress ["a"; "b"; "c"; "d"] 2). lia. Defined.


Lemma dict_get_set_same (d : Resolver.GeneSymbolMap) (k v dflt : string) :
  Engine.dict_get (dict_set d k v) k dflt = v.
Proof.
  induction d as [|[k' v'] d IH]; simpl.
  - rewrite String.eqb_refl. reflexivity.
  - destruct (String.eqb k' k) eqn:E; simpl; rewrite E; auto.
Qed.

Lemma dict_get_set_other (d : Resolver.GeneSymbolMap) (k k' v dflt : string) :
  k' <> k ->
  Engine.dict_get (dict_set d k v) k' dflt = Engine.dict_get d k' dflt.
Proof.
  intros Hne. induction d as [|[k0 v0] d IH]; simpl.
  - destruct (String.eqb k k') eqn:E; [|reflexivity].
    apply String.eqb_eq in E. congruence.
  - destruct (String.eqb k0 k) eqn:E; simpl.
    + apply String.eqb_eq in E. subst k0.
      destruct (String.eqb k k') eqn:E'; [|reflexivity].
      apply String.eqb_eq in E'. congruence.
    + rewrite IH. reflexivity.
Qed.

Lemma dict_set_keys (d : Resolver.GeneSymbolMap) (k v : string) :
  map fst (dict_set d k v)
  = if existsb (String.eqb k) (map fst d) then map fst d else (map fst d ++ [k])%list.
Proof.
  induction d as [|[k' v'] d IH]; simpl; [reflexivity|].
  destruct (String.eqb k' k) eqn:E; simpl.
  - rewrite String.eqb_sym, E. reflexivity.
  - rewrite String.eqb_sym, E, IH. simpl.
    destruct (existsb (String.eqb k) (map fst d)); reflexivity.
Qed.

Lemma dict_set_NoDup (d : Resolver.GeneSymbolMap) (k v : string) :
  NoDup (map fst d) -> NoDup (map fst (dict_set d k v)).
Proof.
  intros Hnd. rewrite dict_set_keys.
  destruct (existsb (String.eqb k) (map fst d)) eqn:E; [exact Hnd|].
  apply NoDup_app; [exact Hnd | repeat constructor; simpl; tauto |].
  intros x Hx [Hk|[]]. subst x.
  assert (existsb (String.eqb k) (map fst d) = true); [|congruence].
  apply existsb_exists. exists k. split; [exact Hx | apply String.eqb_refl].
Qed.

Lemma find_last {A : Type} (f : A -> bool) (l : list A) (a : A) :
  find f (rev (a :: l)) =
  match find f (rev l) with
  | Some b => Some b
  | None => if f a then Some a else None
  end.
Proof.
  simpl. induction (rev l) as [|b t IH]; simpl.
  - reflexivity.
  - destruct (f b); auto.
Qed.

Lemma build_from (all_results : list QueryResult) (acc : Resolver.GeneSymbolMap)
    (q dflt : string) :
  let step := fun (gene_symbols : Resolver.GeneSymbolMap) (result : QueryResult) =>
                match query result, symbol result with
                | Some q', Some s => dict_set gene_symbols q' s
                | _, _ => gene_symbols
                end in
  (NoDup (map fst acc) -> NoDup (map fst (fold_left step all_results acc)))
  /\ Engine.dict_get (fold_left step all_results acc) q dflt
     = match find (answers q) (rev all_results) with
       | Some r => symbol_or dflt (Some r)
       | None => Engine.dict_get acc q dflt
       end.
Proof.
  intros step. revert acc.
  induction all_results as [|r rs IH]; intros acc.
  - simpl. auto.
  - destruct (IH (step acc r)) as [IHn IHg]. split.
    + intros Hnd. simpl. apply IHn. unfold step.
      destruct (query r); [|exact Hnd]. destruct (symbol r); [|exact Hnd].
      apply dict_set_NoDup. exact Hnd.
    + change (fold_left step (r :: rs) acc) with (fold_left step rs (step acc r)).
      rewrite IHg, find_last.
      destruct (find (answers q) (rev rs)); [reflexivity|].
      unfold step, answers, symbol_or.
      destruct r as [[q'|] [s|]]; simpl; try reflexivity.
      destruct (String.eqb q' q) eqn:E.
      * apply String.eqb_eq in E. subst q'. apply dict_get_set_same.
      * apply dict_get_set_other. intros ->. rewrite String.eqb_refl in E. discriminate.
Qed.

(** X3.  The mapping built from the answers of the service has each
    identifier once, and looking an identifier up gives the symbol of the
    last answer that carries both that query and a symbol; answers without
    a symbol change nothing. *)
Theorem build_gene_symbols_lookup (all_results : list QueryResult) (q dflt : string) :
  NoDup (map fst (build_gene_symbols all_results))
  /\ Engine.dict_get (build_gene_symbols all_results) q dflt
     = symbol_or dflt (find (answers q) (rev all_results)).
Proof.
  destruct (build_from all_results [] q dflt) as [Hn Hg]. split.
  - apply Hn. constructor.
  - unfold build_gene_symbols. rewrite Hg.
    destruct (find (answers q) (rev all_results)); reflexivity.
Qed.

Lemma prefix_before_dot (s : string) : String.prefix (Str.before_dot s) s = true.
Proof.
  induction s as [|c s IH]; simpl; [reflexivity|].
  destruct (Ascii.eqb c "."); simpl; [reflexivity|].
  destruct (ascii_dec c c) as [_|n]; [exact IH | congruence].
Qed.

Lemma contains_before_dot (s : string) : Str.contains (Str.before_dot s) s = true.
Proof.
  destruct s as [|c s]; [reflexivity|].
  unfold Str.contains; fold Str.contains.
  rewrite prefix_before_dot. reflexivity.
Qed.

(** X4.  A row key whose cleaned identifier has a symbol in the mapping can be
    found through that symbol: the resolver of the web app returns a row
    key of the matrix. *)
Theorem converted_gene_resolves (gene_symbols : Resolver.GeneSymbolMap)
    (index : list string) (key sym : string) :
  In key index ->
  In (Str.before_dot key, sym) gene_symbols ->
  exists found,
    Resolver.find_target_gene gene_symbols index sym = Some found /\ In found index.
Proof.
  intros Hkey Hentry.
  assert (Hhit : In key (Resolver.symbol_hits gene_symbols index sym)).
  { unfold Resolver.symbol_hits. apply in_flat_map.
    exists (Str.before_dot key, sym). split; [exact Hentry|]. simpl.
    rewrite String.eqb_refl. apply filter_In. split; [exact Hkey|].
    apply contains_before_dot. }
  rewrite find_target_gene_spec. unfold Resolver.resolve_spec.
  destruct (Resolver.symbol_hits gene_symbols index sym) as [|found hits] eqn:Hs;
    [contradiction|].
  exists found. split; [reflexivity|].
  assert (Hin : In found (Resolver.symbol_hits gene_symbols index sym))
    by (rewrite Hs; left; reflexivity).
  unfold Resolver.symbol_hits in Hin. apply in_flat_map in Hin.
  destruct Hin as [entry [_ Hin]].
  destruct (String.eqb _ _); [|contradiction].
  apply filter_In in Hin. tauto.
Qed.

Lemma converted_gene_resolves_witness :
  exists found,
    Resolver.find_target_gene [("ENSG1", "TP53")] ["ENSG2.1"; "ENSG1.3"] "TP53" = Some found
    /\ In found ["ENSG2.1"; "ENSG1.3"].
Proof.
  apply (converted_gene_resolves [("ENSG1", "TP53")] ["ENSG2.1"; "ENSG1.3"] "ENSG1.3" "TP53").
  - right. left. reflexivity.
  - left. reflexivity.
Defined.


Lemma comes_before_total (a b : option Q) :
  comes_before a b = false -> comes_before b a = true.
Proof.
  destruct a as [x|], b as [y|]; simpl; try discriminate; try reflexivity.
  intros H. apply Qle_bool_iff.
  destruct (Qlt_le_dec x y) as [Hlt|Hle]; [lra|].
  apply Qle_bool_iff in Hle. congruence.
Qed.

Lemma comes_before_trans (a b c : option Q) :
  comes_before a b = true -> comes_before b c = true -> comes_before a c = true.
Proof.
  destruct a as [x|], b as [y|], c as [z|]; simpl; try discriminate; try reflexivity.
  rewrite !Qle_bool_iff. intros. lra.
Qed.

Lemma insert_desc_perm (x : string * option Q) (l : list (string * option Q)) :
  Permutation (insert_desc x l) (x :: l).
Proof.
  induction l as [|y l IH]; simpl; [reflexivity|].
  destruct (comes_before (snd x) (snd y)); [reflexivity|].
  rewrite IH. apply perm_swap.
Qed.

Lemma insert_desc_sorted (x : string * option Q) (l : list (string * option Q)) :
  StronglySorted ranks_before l -> StronglySorted ranks_before (insert_desc x l).
Proof.
  induction l as [|y l IH]; simpl; intros Hs.
  - repeat constructor.
  - inversion Hs as [|? ? Hs' Hall]; subst.
    destruct (comes_before (snd x) (snd y)) eqn:E.
    + constructor; [exact Hs|]. constructor; [exact E|].
      eapply Forall_impl; [|exact Hall].
      intros z Hz. unfold ranks_before in *. eapply comes_before_trans; eauto.
    + constructor; [apply IH; exact Hs'|].
      eapply Permutation_Forall; [symmetry; apply insert_desc_perm|].
      constructor; [apply comes_before_total; exact E | exact Hall].
Qed.

Lemma skipn_incl {A : Type} (n : nat) (l : list A) (y : A) :
  In y (skipn n l) -> In y l.
Proof.
  intros H. rewrite <- (firstn_skipn n l). apply in_or_app. right. exact H.
Qed.

Lemma firstn_incl {A : Type} (n : nat) (l : list A) (x : A) :
  In x (firstn n l) -> In x l.
Proof.
  intros H. rewrite <- (firstn_skipn n l). apply in_or_app. left. exact H.
Qed.

Lemma sorted_head_dominates {A : Type} (R : A -> A -> Prop) (l : list A) (n : nat) :
  StronglySorted R l ->
  forall x y, In x (firstn n l) -> In y (skipn n l) -> R x y.
Proof.
  intros Hs. revert n. induction Hs as [|a l Hs IH Hall]; intros n x y Hx Hy.
  - rewrite firstn_nil in Hx. contradiction.
  - destruct n as [|n]; simpl in *; [contradiction|].
    destruct Hx as [Hx|Hx].
    + subst x. rewrite Forall_forall in Hall. apply Hall.
      eapply skipn_incl. exact Hy.
    + eapply IH; eauto.
Qed.

Lemma fold_insert_desc_perm (l : list (string * option Q)) :
  Permutation (fold_right insert_desc [] l) l.
Proof.
  induction l as [|x l IH]; simpl; [reflexivity|].
  rewrite insert_desc_perm. constructor. exact IH.
Qed.

Lemma fold_insert_desc_sorted (l : list (string * option Q)) :
  StronglySorted ranks_before (fold_right insert_desc [] l).
Proof.
  induction l as [|x l IH]; simpl; [constructor|].
  apply insert_desc_sorted. exact IH.
Qed.

(** X5.  The genes sent to conversion are the [top_genes] first of the
    ranking by variance: as many as asked for if the matrix has that many,
    all of them row keys of the matrix, and none of the genes left out
    ranks before a selected one (larger variance first, undefined variance
    last). *)
Theorem top_gene_ids_largest_variance (expression_data : DataFrame) (top_genes : nat) :
  Permutation (gene_vars expression_data)
    (map (fun r => (fst r, var (values (snd r)))) expression_data)
  /\ List.length (top_gene_ids expression_data top_genes)
     = Nat.min top_genes (List.length expression_data)
  /\ incl (top_gene_ids expression_data top_genes) (index expression_data)
  /\ (forall x y,
        In x (firstn top_genes (gene_vars expression_data)) ->
        In y (skipn top_genes (gene_vars expression_data)) ->
        comes_before (snd x) (snd y) = true).
Proof.
  assert (Hperm := fold_insert_desc_perm
            (map (fun r => (fst r, var (values (snd r)))) expression_data)).
  assert (Hsorted := fold_insert_desc_sorted
            (map (fun r => (fst r, var (values (snd r)))) expression_data)).
  fold (gene_vars expression_data) in Hperm, Hsorted.
  split; [exact Hperm|]. split; [|split].
  - unfold top_gene_ids. rewrite length_map, length_firstn.
    rewrite (Permutation_length Hperm), length_map. reflexivity.
  - intros g Hg. unfold top_gene_ids in Hg.
    apply in_map_iff in Hg. destruct Hg as [[g' v] [E Hin]]. simpl in E. subst g'.
    apply firstn_incl in Hin.
    apply (Permutation_in _ Hperm) in Hin.
    apply in_map_iff in Hin. destruct Hin as [[k row] [E Hin]].
    inversion E; subst. unfold index. apply in_map_iff. exists (g, row). auto.
  - intros x y Hx Hy.
    exact (sorted_head_dominates ranks_before _ _ Hsorted x y Hx Hy).
Qed.

End GeneConversionFacts.

(** ** The stored table of the web app and its views *)

Section WebTableFacts.

Import Pandas WebViews.
Local Open Scope string_scope.

Variable ttest_ind : list R -> list R -> option (R * Q).

(** What a completed analysis consists of. *)
Lemma analysis_complete_inv (gene_symbols : Resolver.GeneSymbolMap)
    (expression_data : DataFrame) (target : string) (p_threshold : Q)
    (fc_threshold : R) (method : string) (high_threshold low_threshold : option Q)
    (de_results : list WebApp.WebResult) :
  WebApp.analysis_section ttest_ind gene_symbols expression_data target
    p_threshold fc_threshold method high_threshold low_threshold
  = WebApp.AnalysisComplete de_results ->
  exists key high low records,
    Resolver.find_target_gene gene_symbols (index expression_data) target = Some key
    /\ Stratify.group_samples Stratify.module_globals expression_data key method
       = inr (high, low)
    /\ Engine.run_differential_expression ttest_ind gene_symbols expression_data high low
       = inr records
    /\ records <> []
    /\ de_results = WebApp.sort_values (labelled p_threshold fc_threshold records).
Proof.
  unfold WebApp.analysis_section.
  destruct (Resolver.find_target_gene _ _ _) as [key|]; [|discriminate].
  destruct (Stratify.group_samples _ _ _ _) as [e|[high low]] eqn:Hg;
    cbv beta iota delta [bind fst snd]; [discriminate|].
  unfold WebApp.analyse_groups.
  destruct (Engine.run_differential_expression _ _ _ _ _) as [e|[|r records]] eqn:Hrun;
    cbv beta iota delta [bind]; try discriminate.
  intros H.
  assert (Hinj : forall t t' : list WebApp.WebResult,
            WebApp.AnalysisComplete t = WebApp.AnalysisComplete t' -> t = t')
    by (intros t t' E; congruence).
  apply Hinj in H.
  exists key, high, low, (r :: records).
  split; [reflexivity|]. split; [exact Hg|]. split; [exact Hrun|].
  split; [discriminate|]. symmetry. exact H.
Qed.

Lemma sort_values_perm (l : list WebApp.WebResult) :
  Permutation (WebApp.sort_values l) l.
Proof.
  unfold WebApp.sort_values. induction l as [|x l IH]; simpl; [reflexivity|].
  assert (Hi : forall y t, Permutation (WebApp.insert_by_adj y t) (y :: t)).
  { intros y t. induction t as [|z t IHt]; simpl; [reflexivity|].
    destruct (Qle_bool _ _); [reflexivity|]. rewrite IHt. apply perm_swap. }
  rewrite Hi. constructor. exact IH.
Qed.

Lemma false_discovery_control_range (ps : list Q) :
  Forall (fun a => (0 <= a <= 1)%Q) (Correction.false_discovery_control ps).
Proof.
  unfold Correction.false_discovery_control. rewrite Forall_forall. intros a Ha.
  apply in_map_iff in Ha. destruct Ha as [x [Hx _]]. subst a. apply clip01_range.
Qed.

Lemma analysis_rows_labelled (gene_symbols : Resolver.GeneSymbolMap)
    (expression_data : DataFrame) (target : string) (p_threshold : Q)
    (fc_threshold : R) (method : string) (high_threshold low_threshold : option Q)
    (de_results : list WebApp.WebResult) :
  WebApp.analysis_section ttest_ind gene_symbols expression_data target
    p_threshold fc_threshold method high_threshold low_threshold
  = WebApp.AnalysisComplete de_results ->
  Forall (fun r =>
            (0 <= WebApp.adj_p_value r <= 1)%Q
            /\ WebApp.significance r
               = Classifier.significance p_threshold fc_threshold (WebApp.adj_p_value r)
                   (Engine.log2_fold_change (WebApp.record r))
            /\ (WebApp.significance r = "up" \/ WebApp.significance r = "down"
                \/ WebApp.significance r = "ns"))
         de_results.
Proof.
  intros Hrun.
  destruct (analysis_complete_inv _ _ _ _ _ _ _ _ _ Hrun)
    as [key [high [low [records [Hf [Hg [He [Hne Ht]]]]]]]].
  subst de_results.
  eapply Permutation_Forall; [symmetry; apply sort_values_perm|].
  unfold labelled. rewrite Forall_forall. intros r Hr.
  apply in_map_iff in Hr. destruct Hr as [[rec a] [Hr Hin]]. subst r. simpl.
  apply in_combine_r in Hin.
  assert (Hrange := false_discovery_control_range (map Engine.p_value records)).
  rewrite Forall_forall in Hrange. split; [apply Hrange; exact Hin|].
  split; [reflexivity|].
  destruct (significance_cases p_threshold fc_threshold a (Engine.log2_fold_change rec))
    as [[_ L]|[[_ [_ L]]|[_ [_ L]]]]; rewrite L; auto.
Qed.

(** X6.  Every row of the table a completed analysis stores carries an
    adjusted p-value in [0, 1] and the label that the thresholds of the
    run give to its adjusted p-value and fold change, one of "up", "down"
    and "ns"; and the table holds as many rows as the engine recorded
    genes, for the same genes. *)
Theorem analysis_table_rows (gene_symbols : Resolver.GeneSymbolMap)
    (expression_data : DataFrame) (target : string) (p_threshold : Q)
    (fc_threshold : R) (method : string) (high_threshold low_threshold : option Q)
    (de_results : list WebApp.WebResult) :
  WebApp.analysis_section ttest_ind gene_symbols expression_data target
    p_threshold fc_threshold method high_threshold low_threshold
  = WebApp.AnalysisComplete de_results ->
  Forall (fun r =>
            (0 <= WebApp.adj_p_value r <= 1)%Q
            /\ WebApp.significance r
               = Classifier.significance p_threshold fc_threshold (WebApp.adj_p_value r)
                   (Engine.log2_fold_change (WebApp.record r))
            /\ (WebApp.significance r = "up" \/ WebApp.significance r = "down"
                \/ WebApp.significance r = "ns"))
         de_results
  /\ exists key high low records,
       Resolver.find_target_gene gene_symbols (index expression_data) target = Some key
       /\ Stratify.group_samples Stratify.module_globals expression_data key method
          = inr (high, low)
       /\ Engine.run_differential_expression ttest_ind gene_symbols expression_data high low
          = inr records
       /\ Permutation (map WebApp.record de_results) records.
Proof.
  intros Hrun. split; [exact (analysis_rows_labelled _ _ _ _ _ _ _ _ _ Hrun)|].
  destruct (analysis_complete_inv _ _ _ _ _ _ _ _ _ Hrun)
    as [key [high [low [records [Hf [Hg [He [Hne Ht]]]]]]]].
  subst de_results.
  exists key, high, low, records. repeat split; try assumption.
  rewrite (Permutation_map WebApp.record (sort_values_perm _)).
  unfold labelled. rewrite map_map. simpl.
  rewrite <- (map_map fst (fun x => x)), map_id.
  assert (Hlen : List.length records
                 = List.length (Correction.false_discovery_control
                                  (map Engine.p_value records))).
  { rewrite false_discovery_control_length, length_map. reflexivity. }
  rewrite (combine_fst _ _ Hlen). reflexivity.
Qed.

Lemma filter_sorted {A : Type} (R : A -> A -> Prop) (f : A -> bool) (l : list A) :
  StronglySorted R l -> StronglySorted R (filter f l).
Proof.
  induction 1 as [|a l Hs IH Hall]; simpl; [constructor|].
  destruct (f a); [|exact IH].
  constructor; [exact IH|].
  rewrite Forall_forall in Hall |- *. intros x Hx.
  apply filter_In in Hx. apply Hall. tauto.
Qed.

(** X7.  The heatmap of the web app shows the most significant genes of a
    completed analysis: at most [top_n] of them, each labelled "up" or
    "down", and no significant gene left out has a smaller adjusted
    p-value than a gene shown.  Without a significant gene there is no
    heatmap. *)
Theorem heatmap_shows_most_significant (gene_symbols : Resolver.GeneSymbolMap)
    (expression_data : DataFrame) (target : string) (p_threshold : Q)
    (fc_threshold : R) (method : string) (high_threshold low_threshold : option Q)
    (de_results : list WebApp.WebResult) (top_n : nat) :
  WebApp.analysis_section ttest_ind gene_symbols expression_data target
    p_threshold fc_threshold method high_threshold low_threshold
  = WebApp.AnalysisComplete de_results ->
  let shown := firstn top_n (sig_genes de_results) in
  let left_out := skipn top_n (sig_genes de_results) in
  (heatmap_genes de_results top_n = None <-> sig_genes de_results = [])
  /\ (sig_genes de_results <> [] ->
      heatmap_genes de_results top_n
      = Some (map (fun r => Engine.gene_id (WebApp.record r)) shown))
  /\ (List.length shown <= top_n)%nat
  /\ Forall (fun r => WebApp.significance r = "up" \/ WebApp.significance r = "down") shown
  /\ (forall x y, In x shown -> In y left_out ->
        (WebApp.adj_p_value x <= WebApp.adj_p_value y)%Q).
Proof.
  intros Hrun shown left_out.
  assert (Hrows := analysis_rows_labelled _ _ _ _ _ _ _ _ _ Hrun).
  destruct (analysis_complete_inv _ _ _ _ _ _ _ _ _ Hrun)
    as [key [high [low [records [_ [_ [_ [_ Ht]]]]]]]].
  split; [|split; [|split; [|split]]].
  - unfold heatmap_genes. destruct (sig_genes de_results); split;
      try reflexivity; discriminate.
  - intros Hne. unfold heatmap_genes, shown.
    destruct (sig_genes de_results); [contradiction|reflexivity].
  - unfold shown. rewrite length_firstn. lia.
  - rewrite Forall_forall. intros r Hr. apply firstn_incl in Hr.
    unfold sig_genes in Hr. apply filter_In in Hr. destruct Hr as [Hin Hns].
    rewrite Forall_forall in Hrows. destruct (Hrows r Hin) as [_ [_ Hl]].
    apply negb_true_iff, String.eqb_neq in Hns. tauto.
  - apply (sorted_head_dominates WebApp.by_adj).
    unfold sig_genes. apply filter_sorted. subst de_results. apply sort_values_sorted.
Qed.

Lemma filter_partition_length {A : Type} (f g : A -> bool) (l : list A) :
  (forall a, In a l -> f a = true -> g a = true -> False) ->
  List.length (filter (fun a => f a || g a) l)
  = (List.length (filter f l) + List.length (filter g l))%nat.
Proof.
  induction l as [|a l IH]; simpl; intros Hex; [reflexivity|].
  assert (IH' := IH (fun b Hb => Hex b (or_intror Hb))).
  destruct (f a) eqn:Hf, (g a) eqn:Hg; simpl; try lia.
  exfalso. apply (Hex a); auto.
Qed.

(** X8.  In the summary of a completed analysis the significant genes are
    the upregulated and the downregulated ones together: the second
    number is the sum of the third and the fourth, and it does not exceed
    the first. *)
Theorem summary_adds_up (gene_symbols : Resolver.GeneSymbolMap)
    (expression_data : DataFrame) (target : string) (p_threshold : Q)
    (fc_threshold : R) (method : string) (high_threshold low_threshold : option Q)
    (de_results : list WebApp.WebResult) :
  WebApp.analysis_section ttest_ind gene_symbols expression_data target
    p_threshold fc_threshold method high_threshold low_threshold
  = WebApp.AnalysisComplete de_results ->
  forall total sig up down,
    summary de_results = (total, sig, up, down) ->
    sig = (up + down)%nat /\ (sig <= total)%nat
    /\ total = (sig + List.length (with_label "ns" de_results))%nat.
Proof.
  intros Hrun total sig up down Hsum.
  assert (Hrows := analysis_rows_labelled _ _ _ _ _ _ _ _ _ Hrun).
  unfold summary in Hsum. inversion Hsum; subst; clear Hsum.
  rewrite Forall_forall in Hrows.
  assert (Hlab : forall r, In r de_results ->
            WebApp.significance r = "up" \/ WebApp.significance r = "down"
            \/ WebApp.significance r = "ns")
    by (intros r Hr; destruct (Hrows r Hr) as [_ [_ H]]; exact H).
  clear Hrows Hrun.
  unfold sig_genes, with_label.
  induction de_results as [|r rest IH]; simpl; [lia|].
  assert (IH' := IH (fun x Hx => Hlab x (or_intror Hx))).
  destruct (Hlab r (or_introl eq_refl)) as [L|[L|L]];
    rewrite L; simpl; rewrite ?L; simpl; lia.
Qed.


Lemma category_cases (p_cutoff : Q) (fc_cutoff : R) (r : WebApp.WebResult) :
  (category p_cutoff fc_cutoff r = "Upregulated"
   /\ Classifier.significance p_cutoff fc_cutoff (WebApp.adj_p_value r)
        (Engine.log2_fold_change (WebApp.record r)) = "up")
  \/ (category p_cutoff fc_cutoff r = "Downregulated"
      /\ Classifier.significance p_cutoff fc_cutoff (WebApp.adj_p_value r)
           (Engine.log2_fold_change (WebApp.record r)) = "down")
  \/ (category p_cutoff fc_cutoff r = "Not Significant"
      /\ Classifier.significance p_cutoff fc_cutoff (WebApp.adj_p_value r)
           (Engine.log2_fold_change (WebApp.record r)) = "ns").
Proof.
  unfold category, Classifier.significance.
  destruct (Classifier.cond_up _ _ _ _); [auto|].
  destruct (Classifier.cond_down _ _ _ _); auto.
Qed.

(** X9.  The three counts under the volcano plot add up to the number of rows
    of the table, whatever the cutoffs of the sliders; and when the
    sliders stand at the thresholds of the analysis that produced the
    table, they are the counts of the stored labels "up", "down" and
    "ns". *)
Theorem volcano_counts (gene_symbols : Resolver.GeneSymbolMap)
    (expression_data : DataFrame) (target : string) (p_threshold : Q)
    (fc_threshold : R) (method : string) (high_threshold low_threshold : option Q)
    (de_results : list WebApp.WebResult) (p_cutoff : Q) (fc_cutoff : R) :
  WebApp.analysis_section ttest_ind gene_symbols expression_data target
    p_threshold fc_threshold method high_threshold low_threshold
  = WebApp.AnalysisComplete de_results ->
  (category_count p_cutoff fc_cutoff "Upregulated" de_results
   + category_count p_cutoff fc_cutoff "Downregulated" de_results
   + category_count p_cutoff fc_cutoff "Not Significant" de_results
   = List.length de_results)%nat
  /\ category_count p_threshold fc_threshold "Upregulated" de_results
     = List.length (with_label "up" de_results)
  /\ category_count p_threshold fc_threshold "Downregulated" de_results
     = List.length (with_label "down" de_results)
  /\ category_count p_threshold fc_threshold "Not Significant" de_results
     = List.length (with_label "ns" de_results).
Proof.
  intros Hrun.
  assert (Hrows := analysis_rows_labelled _ _ _ _ _ _ _ _ _ Hrun).
  rewrite Forall_forall in Hrows.
  assert (Hlab : forall r, In r de_results ->
            WebApp.significance r
            = Classifier.significance p_threshold fc_threshold (WebApp.adj_p_value r)
                (Engine.log2_fold_change (WebApp.record r)))
    by (intros r Hr; destruct (Hrows r Hr) as [_ [H _]]; exact H).
  clear Hrows Hrun. unfold category_count, with_label.
  split.
  - clear Hlab. induction de_results as [|r rest IH]; simpl; [reflexivity|].
    destruct (category_cases p_cutoff fc_cutoff r) as [[C _]|[[C _]|[C _]]];
      rewrite C; simpl; lia.
  - induction de_results as [|r rest IH]; simpl; [auto|].
    destruct (IH (fun x Hx => Hlab x (or_intror Hx))) as [I1 [I2 I3]].
    rewrite (Hlab r (or_introl eq_refl)).
    destruct (category_cases p_threshold fc_threshold r) as [[C L]|[[C L]|[C L]]];
      rewrite C, L; simpl; rewrite I1, I2, I3; auto.
Qed.

Lemma total_center (row : list R) : Engine.total (center row) = 0%R.
Proof.
  unfold center.
  assert (H : forall (m : R) (l : list R),
            Engine.total (map (fun v => (v - m)%R) l)
            = (Engine.total l - INR (List.length l) * m)%R).
  { intros m l. induction l as [|x l IH]; [simpl; lra|].
    change (Engine.total (map (fun v => (v - m)%R) (x :: l)))
      with ((x - m) + Engine.total (map (fun v => (v - m)%R) l))%R.
    rewrite IH.
    change (Engine.total (x :: l)) with (x + Engine.total l)%R.
    change (List.length (x :: l)) with (S (List.length l)).
    rewrite S_INR. lra. }
  rewrite H. unfold Engine.mean.
  destruct row as [|x row]; [simpl; lra|].
  assert (Hn : INR (List.length (x :: row)) <> 0%R).
  { apply not_0_INR. discriminate. }
  field. exact Hn.
Qed.

(** X10.  The heatmap has one row per requested gene, in the order asked, and
    every row is centred: its values add up to zero, so the mean of a
    non-empty row is zero.  It fails with [KeyError] exactly when a requested gene is no
    row key of the matrix. *)
Theorem heatmap_rows_centred (expression_data : DataFrame) (top_genes : list string) :
  (forall rows, heatmap_data expression_data top_genes = inr rows ->
     map fst rows = top_genes
     /\ Forall (fun r => Engine.total (snd r) = 0%R
                          /\ (snd r <> [] -> Engine.mean (snd r) = 0%R)) rows)
  /\ ((exists e, heatmap_data expression_data top_genes = inl e)
      <-> exists g, In g top_genes /\ ~ In g (index expression_data)).
Proof.
  split.
  - intros rows Hrows. unfold heatmap_data in Hrows.
    apply mapM_Forall2 in Hrows. split.
    + induction Hrows as [|g r gs rs Hgr HF IH]; simpl; [reflexivity|].
      destruct (loc expression_data g) as [e|row]; simpl in Hgr; [discriminate|].
      injection Hgr as Hr. rewrite <- Hr. simpl. rewrite IH. reflexivity.
    + induction Hrows as [|g r gs rs Hgr HF IH]; constructor; [|exact IH].
      destruct (loc expression_data g) as [e|row]; simpl in Hgr; [discriminate|].
      injection Hgr as Hr. rewrite <- Hr. simpl.
      assert (Ht := total_center (map Engine.log2p1 (values row))).
      split; [exact Ht|]. intros _. unfold Engine.mean at 1. rewrite Ht. unfold Rdiv. lra.
  - assert (Hloc : forall g, (exists e, loc expression_data g = inl e)
                             <-> ~ In g (index expression_data)).
    { intros g. induction expression_data as [|[k r] rest IH]; simpl.
      - split; [tauto | intros _; eauto].
      - destruct (String.eqb k g) eqn:E.
        + apply String.eqb_eq in E. subst k. split; [intros [e He]; discriminate | tauto].
        + apply String.eqb_neq in E. rewrite IH. tauto. }
    unfold heatmap_data. split.
    + intros [e He]. apply mapM_inl in He. destruct He as [g [Hin Hg]].
      exists g. split; [exact Hin|]. apply Hloc.
      destruct (loc expression_data g) as [e'|row]; [eauto | simpl in Hg; discriminate].
    + intros [g [Hin Hnot]]. apply Hloc in Hnot. destruct Hnot as [e He].
      induction top_genes as [|g' gs IH]; [contradiction|]. simpl.
      destruct (loc expression_data g') as [e'|row] eqn:Hl; simpl; [eauto|].
      destruct Hin as [Hin|Hin]; [subst g'; congruence|].
      destruct (IH Hin) as [e'' He'']. rewrite He''. simpl. eauto.
Qed.

End WebTableFacts.

(** ** Quality control, lookups and gene lists of the enhanced variant *)

Section EnhancedViewFacts.

Import Pandas QualityControl Lookup Pathway.
Local Open Scope string_scope.

Lemma expressed_in_mono (e e' : Q) (row : Series) :
  (e <= e')%Q -> (expressed_in e' row <= expressed_in e row)%nat.
Proof.
  intros He. unfold expressed_in.
  induction (values row) as [|v vs IH]; simpl; [lia|].
  destruct (Classifier.Qltb e' v) eqn:E'.
  - apply Qltb_lt in E'.
    replace (Classifier.Qltb e v) with true
      by (symmetry; apply Qltb_lt; lra).
    simpl. lia.
  - destruct (Classifier.Qltb e v); simpl; lia.
Qed.

(** X11.  Gene filtering keeps exactly the rows with at least [min_samples]
    cells above [min_expression], unchanged; applying it again with the
    same settings changes nothing; stricter settings keep a subset; and a
    [min_samples] above the number of cells of every row empties the
    matrix. *)
Theorem gene_filtering (min_expression : Q) (min_samples : nat) (expr_data : DataFrame) :
  (forall r, In r (apply_gene_filtering min_expression min_samples expr_data)
             <-> In r expr_data /\ (min_samples <= expressed_in min_expression (snd r))%nat)
  /\ apply_gene_filtering min_expression min_samples
       (apply_gene_filtering min_expression min_samples expr_data)
     = apply_gene_filtering min_expression min_samples expr_data
  /\ (forall e' m', (min_expression <= e')%Q -> (min_samples <= m')%nat ->
        incl (apply_gene_filtering e' m' expr_data)
             (apply_gene_filtering min_expression min_samples expr_data))
  /\ ((forall r, In r expr_data -> (List.length (snd r) < min_samples)%nat) ->
      apply_gene_filtering min_expression min_samples expr_data = []).
Proof.
  assert (Hin : forall e m r, In r (apply_gene_filtering e m expr_data)
                  <-> In r expr_data /\ (m <= expressed_in e (snd r))%nat).
  { intros e m r. unfold apply_gene_filtering. rewrite filter_In, Nat.leb_le. reflexivity. }
  split; [apply Hin|]. split; [|split].
  - unfold apply_gene_filtering.
    induction expr_data as [|r rest IH]; simpl; [reflexivity|].
    destruct (min_samples <=? expressed_in min_expression (snd r))%nat eqn:E; simpl.
    + rewrite E. f_equal. apply IH. intros e m x. unfold apply_gene_filtering.
      rewrite filter_In, Nat.leb_le. reflexivity.
    + apply IH. intros e m x. unfold apply_gene_filtering.
      rewrite filter_In, Nat.leb_le. reflexivity.
  - intros e' m' He Hm r Hr. apply Hin in Hr. apply Hin.
    destruct Hr as [Hr Hc]. split; [exact Hr|].
    assert (H := expressed_in_mono min_expression e' (snd r) He). lia.
  - intros Hshort. unfold apply_gene_filtering.
    induction expr_data as [|r rest IH]; simpl; [reflexivity|].
    assert (Hr := Hshort r (or_introl eq_refl)).
    assert (Hc : (expressed_in min_expression (snd r) <= List.length (snd r))%nat).
    { unfold expressed_in, values. rewrite <- (length_map snd (snd r)).
      apply filter_length_le. }
    replace (min_samples <=? expressed_in min_expression (snd r))%nat with false
      by (symmetry; apply Nat.leb_gt; lia).
    apply IH.
    + intros e m x. unfold apply_gene_filtering.
      rewrite filter_In, Nat.leb_le. reflexivity.
    + intros x Hx. apply Hshort. right. exact Hx.
Qed.

Lemma first_row_containing_loc (gene_id : string) (expression_data : DataFrame) :
  first_row_containing gene_id expression_data
  = match Resolver.first_containing gene_id (index expression_data) with
    | Some key => match loc expression_data key with
                  | inr row => Some row
                  | inl _ => None
                  end
    | None => None
    end.
Proof.
  induction expression_data as [|[k r] rest IH]; simpl; [reflexivity|].
  destruct (Str.contains gene_id k) eqn:E.
  - rewrite String.eqb_refl. reflexivity.
  - rewrite IH. destruct (Resolver.first_containing gene_id (index rest)) as [key|] eqn:Hf;
      [|reflexivity].
    destruct (String.eqb k key) eqn:Ek; [|reflexivity].
    apply String.eqb_eq in Ek. subst key.
    assert (Hc : Str.contains gene_id k = true).
    { clear IH. induction (index rest) as [|x xs IHx]; simpl in Hf; [discriminate|].
      destruct (Str.contains gene_id x) eqn:Ex; [congruence | auto]. }
    congruence.
Qed.

Lemma row_by_partial_match_loc (expression_data : DataFrame) (target : string) :
  row_by_partial_match expression_data target
  = match Resolver.by_partial_match (index expression_data) target with
    | Some key => match loc expression_data key with
                  | inr row => Some row
                  | inl _ => None
                  end
    | None => None
    end.
Proof.
  induction expression_data as [|[k r] rest IH]; simpl; [reflexivity|].
  destruct (Str.contains (Str.upper target) (Str.upper k)) eqn:E.
  - rewrite String.eqb_refl. reflexivity.
  - rewrite IH.
    destruct (Resolver.by_partial_match (index rest) target) as [key|] eqn:Hf;
      [|reflexivity].
    destruct (String.eqb k key) eqn:Ek; [|reflexivity].
    apply String.eqb_eq in Ek. subst key.
    assert (Hc : Str.contains (Str.upper target) (Str.upper k) = true).
    { clear IH. induction (index rest) as [|x xs IHx]; simpl in Hf; [discriminate|].
      destruct (Str.contains (Str.upper target) (Str.upper x)) eqn:Ex;
        [congruence | auto]. }
    congruence.
Qed.

(** X12.  [find_gene_expression] of the enhanced variant returns the row under
    the key that [find_target_gene] of the web app resolves for the same
    target, and nothing exactly when that resolver finds no key. *)
Theorem find_gene_expression_resolves (gene_symbols : Resolver.GeneSymbolMap)
    (expression_data : DataFrame) (target : string) :
  find_gene_expression gene_symbols expression_data target
  = match Resolver.find_target_gene gene_symbols (index expression_data) target with
    | Some key => match loc expression_data key with
                  | inr row => Some row
                  | inl _ => None
                  end
    | None => None
    end
  /\ (find_gene_expression gene_symbols expression_data target = None
      <-> Resolver.find_target_gene gene_symbols (index expression_data) target = None).
Proof.
  assert (Hsym : row_by_symbol gene_symbols expression_data target
                 = match Resolver.by_symbol gene_symbols (index expression_data) target with
                   | Some key => match loc expression_data key with
                                 | inr row => Some row
                                 | inl _ => None
                                 end
                   | None => None
                   end).
  { induction gene_symbols as [|[gid sym] rest IH]; simpl; [reflexivity|].
    destruct (String.eqb (Str.upper sym) (Str.upper target)); [|exact IH].
    rewrite first_row_containing_loc.
    destruct (Resolver.first_containing gid (index expression_data)) as [key|] eqn:Hf;
      [|exact IH].
    apply first_containing_in in Hf. apply loc_in_index in Hf.
    destruct Hf as [row Hrow]. rewrite Hrow. reflexivity. }
  assert (Heq : find_gene_expression gene_symbols expression_data target
    = match Resolver.find_target_gene gene_symbols (index expression_data) target with
      | Some key => match loc expression_data key with
                    | inr row => Some row
                    | inl _ => None
                    end
      | None => None
      end).
  { unfold find_gene_expression, Resolver.find_target_gene.
    rewrite Hsym, row_by_partial_match_loc.
    destruct gene_symbols as [|entry rest]; [reflexivity|].
    destruct (Resolver.by_symbol (entry :: rest) (index expression_data) target)
      as [key|] eqn:Hb; [|reflexivity].
    assert (Hin : In key (index expression_data)).
    { rewrite by_symbol_hits in Hb. unfold Resolver.symbol_hits in Hb.
      destruct (flat_map _ _) as [|k hits] eqn:Hs; [discriminate|].
      inversion Hb; subst.
      assert (Hk : In key (key :: hits)) by (left; reflexivity).
      rewrite <- Hs in Hk. apply in_flat_map in Hk. destruct Hk as [en [_ Hk]].
      destruct (String.eqb _ _); [|contradiction].
      apply filter_In in Hk. tauto. }
    apply loc_in_index in Hin. destruct Hin as [row Hrow]. rewrite Hrow. reflexivity. }
  split; [exact Heq|]. rewrite Heq.
  destruct (Resolver.find_target_gene gene_symbols (index expression_data) target)
    as [key|] eqn:Hf; [|tauto].
  apply find_target_gene_in_index in Hf. apply loc_in_index in Hf.
  destruct Hf as [row Hrow]. rewrite Hrow. split; discriminate.
Qed.

(** X13.  For a fold-change cutoff that is not negative, the gene list for
    "Both directions" is made of the lists for the two single directions:
    a gene is in it exactly when it is in one of them, and its length is
    the sum of theirs.  The conversion to symbols keeps the length of the
    list. *)
Theorem pathway_gene_lists (p_cutoff : Q) (fc_cutoff : R) (de_results : DETable)
    (gene_symbols : Resolver.GeneSymbolMap) :
  (0 <= fc_cutoff)%R ->
  let up := gene_list "Up-regulated only" p_cutoff fc_cutoff de_results in
  let down := gene_list "Down-regulated only" p_cutoff fc_cutoff de_results in
  let both := gene_list "Both directions" p_cutoff fc_cutoff de_results in
  List.length both = (List.length up + List.length down)%nat
  /\ (forall g, In g both <-> In g up \/ In g down)
  /\ List.length (to_symbols gene_symbols both) = List.length both.
Proof.
  intros Hfc up down both. unfold up, down, both, gene_list. simpl.
  set (sig := significant p_cutoff fc_cutoff de_results).
  assert (Hsig : forall e, In e sig ->
            xorb (Classifier.Rltb 0 (fold_change e)) (Classifier.Rltb (fold_change e) 0)
            = true).
  { intros e He. unfold sig, significant in He. apply filter_In in He.
    destruct He as [_ He]. unfold Classifier.is_significant in He.
    apply andb_true_iff in He. destruct He as [_ He]. apply Rltb_lt in He.
    unfold Classifier.Rltb.
    destruct (Rlt_dec 0 (fold_change e)), (Rlt_dec (fold_change e) 0); simpl;
      try reflexivity; exfalso.
    - lra.
    - assert (fold_change e = 0%R) by lra.
      rewrite H in He. rewrite Rabs_R0 in He. lra. }
  split; [|split].
  - rewrite !length_map. clearbody sig.
    induction sig as [|e rest IH]; simpl; [reflexivity|].
    assert (IH' := IH (fun x Hx => Hsig x (or_intror Hx))).
    assert (He := Hsig e (or_introl eq_refl)).
    destruct (Classifier.Rltb 0 (fold_change e)), (Classifier.Rltb (fold_change e) 0);
      simpl in *; try discriminate; lia.
  - intros g. rewrite !in_map_iff. split.
    + intros [e [Hg He]]. assert (Hx := Hsig e He).
      destruct (Classifier.Rltb 0 (fold_change e)) eqn:E1.
      * left. exists e. split; [exact Hg|]. apply filter_In. auto.
      * right. exists e. split; [exact Hg|]. apply filter_In. split; [exact He|].
        destruct (Classifier.Rltb (fold_change e) 0); [reflexivity | discriminate].
    + intros [[e [Hg He]]|[e [Hg He]]]; exists e; apply filter_In in He; tauto.
  - unfold to_symbols. destruct gene_symbols; [reflexivity|]. apply length_map.
Qed.

Lemma pathway_gene_lists_witness :
  List.length (gene_list "Both directions" (5 # 100) 1 [])
  = (List.length (gene_list "Up-regulated only" (5 # 100) 1 [])
     + List.length (gene_list "Down-regulated only" (5 # 100) 1 []))%nat.
Proof.
  apply (pathway_gene_lists (5 # 100) 1 [] []). lra.
Defined.

End EnhancedViewFacts.

(** ** Stratification at the edges *)

Section StratifyEdgeFacts.

Import Pandas Stratify.
Local Open Scope string_scope.

Variable ttest_ind : list R -> list R -> option (R * Q).

Lemma filter_all_true {A : Type} (f : A -> bool) (l : list A) :
  (forall x, In x l -> f x = true) -> filter f l = l.
Proof.
  induction l as [|x xs IH]; intros H; cbn [filter]; [reflexivity|].
  rewrite (H x (or_introl eq_refl)). f_equal. apply IH.
  intros y Hy. apply H. right. exact Hy.
Qed.

Lemma filter_all_false {A : Type} (f : A -> bool) (l : list A) :
  (forall x, In x l -> f x = false) -> filter f l = [].
Proof.
  induction l as [|x xs IH]; intros H; cbn [filter]; [reflexivity|].
  rewrite (H x (or_introl eq_refl)). apply IH.
  intros y Hy. apply H. right. exact Hy.
Qed.

Lemma sort_constant (c : Q) (vs : list Q) :
  Forall (fun v => v = c) vs -> sort vs = vs.
Proof.
  induction 1 as [|v vs Hv Hall IH]; [reflexivity|].
  unfold sort in *. simpl. rewrite IH. subst v.
  destruct vs as [|w ws]; [reflexivity|].
  inversion Hall; subst. simpl.
  replace (Qle_bool c c) with true; [reflexivity|].
  symmetry. apply Qle_bool_iff. apply Qle_refl.
Qed.

Lemma nth_constant (c : Q) (vs : list Q) (i : nat) :
  Forall (fun v => v = c) vs -> (i < List.length vs)%nat -> nth i vs 0%Q = c.
Proof.
  intros Hall Hi. rewrite Forall_forall in Hall. apply Hall. apply nth_In. exact Hi.
Qed.

Lemma median_constant (c : Q) (vs : list Q) :
  Forall (fun v => v = c) vs -> vs <> [] ->
  exists m, median vs = Some m /\ (m == c)%Q.
Proof.
  intros Hall Hne. unfold median. rewrite (sort_constant c vs Hall).
  destruct vs as [|v vs']; [contradiction|].
  set (l := v :: vs') in *.
  assert (Hlen : (0 < List.length l)%nat) by (simpl; lia).
  replace (List.length l =? 0)%nat with false by (symmetry; apply Nat.eqb_neq; lia).
  assert (Hhalf : (List.length l / 2 < List.length l)%nat)
    by (apply Nat.div_lt; lia).
  destruct (Nat.odd (List.length l)).
  - eexists. split; [reflexivity|]. rewrite (nth_constant c l _ Hall Hhalf). reflexivity.
  - eexists. split; [reflexivity|].
    rewrite (nth_constant c l _ Hall Hhalf).
    rewrite (nth_constant c l (List.length l / 2 - 1) Hall ltac:(lia)). field.
Qed.

(** X14.  A target gene with the same value in every sample cannot be analysed
    with a median split.  In the web app every sample goes to the high
    group and none to the low group, and the analysis yields no table; in
    the enhanced variant every sample is labelled "High", and the engine
    rejects the one-label design. *)
Theorem constant_target_median_split (gene_symbols : Resolver.GeneSymbolMap)
    (expression_data : DataFrame) (key : string) (row : Series) (c : Q)
    (p_threshold : Q) (fc_threshold : R) :
  loc expression_data key = inr row ->
  row <> [] ->
  Forall (fun cell => snd cell = c) row ->
  group_samples module_globals expression_data key "Median split"
  = inr (map fst row, [])
  /\ (forall table,
        WebApp.analyse_groups ttest_ind gene_symbols expression_data
          p_threshold fc_threshold (map fst row) [] <> inr table)
  /\ label_samples row "Median split" = inr (map (fun _ => "High") row)
  /\ Engine.run_simple_differential_expression ttest_ind expression_data
       (combine (map fst row) (map (fun _ => "High") row))
     = inl (ValueError "Simple DE requires exactly 2 groups").
Proof.
  intros Hloc Hne Hall.
  assert (Hvals : Forall (fun v => v = c) (values row)).
  { unfold values. rewrite Forall_forall in Hall |- *. intros v Hv.
    apply in_map_iff in Hv. destruct Hv as [cell [E Hin]]. subst v. auto. }
  assert (Hvne : values row <> []).
  { unfold values. destruct row; [contradiction | discriminate]. }
  destruct (median_constant c (values row) Hvals Hvne) as [m [Hm Hmc]].
  assert (Hge : forall cell, In cell row -> at_least (snd cell) (Some m) = true).
  { intros cell Hin. rewrite Forall_forall in Hall. rewrite (Hall cell Hin).
    unfold at_least. apply Qle_bool_iff. rewrite Hmc. apply Qle_refl. }
  assert (Hhigh : filter (fun cell => at_least (snd cell) (Some m)) row = row).
  { apply filter_all_true. exact Hge. }
  assert (Hlow : filter (fun cell => below (snd cell) (Some m)) row = []).
  { apply filter_all_false. intros cell Hin. assert (H := Hge cell Hin).
    unfold at_least in H. unfold below. rewrite H. reflexivity. }
  split; [|split; [|split]].
  - unfold group_samples. rewrite Hloc. simpl. rewrite Hm.
    unfold labels_where. rewrite Hhigh, Hlow. reflexivity.
  - intros table. unfold WebApp.analyse_groups.
    destruct (Engine.run_differential_expression ttest_ind gene_symbols expression_data
                (map fst row) []) as [e|records] eqn:Hrun;
      cbv beta iota delta [bind]; [discriminate|].
    assert (Hsmall : (List.length (map fst row) < 3
                      \/ List.length (@nil string) < 3)%nat)
      by (right; simpl; lia).
    rewrite (web_engine_small_groups ttest_ind _ _ _ _ _ Hsmall Hrun).
    discriminate.
  - unfold label_samples. simpl. rewrite Hm. f_equal. unfold values.
    rewrite map_map. apply map_ext_in. intros cell Hin.
    rewrite (Hge cell Hin). reflexivity.
  - apply two_groups_guard.
    assert (Hu : unique (map snd (combine (map fst row) (map (fun _ => "High") row)))
                 = ["High"]).
    { clear -Hne. destruct row as [|cell rest]; [contradiction|].
      cbn [map combine snd unique]. f_equal. apply filter_all_false.
      intros y Hy. apply (proj1 (unique_In _ _)) in Hy. apply in_map_iff in Hy.
      destruct Hy as [[smp lbl] [E Hin]]. apply in_combine_r in Hin.
      apply in_map_iff in Hin. destruct Hin as [cell' [E' _]].
      rewrite <- E, <- E'. reflexivity. }
    rewrite Hu. simpl. lia.
Qed.

End StratifyEdgeFacts.

(** ** Session state, example data and launcher *)

Section SessionFacts.

Import Session.
Local Open Scope string_scope.

Lemma lookup_set_item (state : SessionState) (key key' : string) (v : value) :
  lookup (set_item state key v) key'
  = if String.eqb key key' then Some v else lookup state key'.
Proof.
  induction state as [|[k w] rest IH]; simpl.
  - reflexivity.
  - destruct (String.eqb k key) eqn:E; simpl.
    + apply String.eqb_eq in E. subst k.
      destruct (String.eqb key key'); reflexivity.
    + rewrite IH. destruct (String.eqb k key') eqn:E'; [|reflexivity].
      apply String.eqb_eq in E'. subst k. rewrite String.eqb_sym, E. reflexivity.
Qed.

Lemma set_item_present (state : SessionState) (key : string) (v : value) :
  lookup state key = Some v -> set_item state key v = state.
Proof.
  induction state as [|[k w] rest IH]; simpl; [discriminate|].
  destruct (String.eqb k key) eqn:E.
  - intros H. inversion H. reflexivity.
  - intros H. rewrite IH by exact H. reflexivity.
Qed.

Lemma lookup_fill_all (defaults state : SessionState) (key : string) :
  lookup (fold_left fill defaults state) key
  = match lookup state key with
    | Some v => Some v
    | None => lookup defaults key
    end.
Proof.
  revert state. induction defaults as [|[k d] rest IH]; intros state; simpl.
  - destruct (lookup state key); reflexivity.
  - rewrite IH. unfold fill, contains_key. simpl.
    destruct (lookup state k) as [w|] eqn:Hk.
    + destruct (lookup state key) as [v|] eqn:Hkey; [reflexivity|].
      destruct (String.eqb k key) eqn:E; [|reflexivity].
      apply String.eqb_eq in E. subst k. congruence.
    + rewrite lookup_set_item.
      destruct (String.eqb k key) eqn:E.
      * apply String.eqb_eq in E. subst k. rewrite Hk. reflexivity.
      * reflexivity.
Qed.

Lemma fill_all_present (defaults state : SessionState) :
  (forall k v, In (k, v) defaults -> contains_key state k = true) ->
  fold_left fill defaults state = state.
Proof.
  induction defaults as [|[k d] rest IH]; intros H; simpl; [reflexivity|].
  unfold fill at 2. simpl. rewrite (H k d (or_introl eq_refl)).
  apply IH. intros k' v' Hin. apply (H k' v'). right. exact Hin.
Qed.

(** X15.  Initialising the session keeps every value that is already there,
    gives each missing key of the defaults its default, and adds no other
    key; doing it again changes nothing. *)
Theorem initialize_session_state_keeps (state : SessionState) (key : string) :
  lookup (initialize_session_state state) key
  = match lookup state key with
    | Some v => Some v
    | None => lookup default_states key
    end
  /\ initialize_session_state (initialize_session_state state)
     = initialize_session_state state.
Proof.
  split; [apply (lookup_fill_all default_states)|].
  apply (fill_all_present default_states). intros k v Hin.
  unfold contains_key.
  change (initialize_session_state state) with (fold_left fill default_states state).
  rewrite lookup_fill_all.
  destruct (lookup state k); [reflexivity|].
  simpl in Hin.
  repeat (destruct Hin as [Hin|Hin]; [inversion Hin; subst; reflexivity|]).
  contradiction.
Qed.

Lemma lookup_reset_all (state : SessionState) (key : string) :
  lookup (reset_all state) key
  = if existsb (String.eqb key)
         ["expression_data"; "clinical_data"; "de_results"; "pathway_results";
          "survival_results"; "literature_results"]
    then Some PyNone
    else if String.eqb key "gene_symbols" then Some (PyDict [])
    else lookup state key.
Proof.
  unfold reset_all. cbv beta iota delta [fold_left].
  rewrite !lookup_set_item.
  cbv beta iota delta [existsb].
  rewrite !(String.eqb_sym key).
  destruct (String.eqb "literature_results" key) eqn:E1;
    [apply String.eqb_eq in E1; subst key; reflexivity|].
  destruct (String.eqb "survival_results" key) eqn:E2;
    [apply String.eqb_eq in E2; subst key; reflexivity|].
  destruct (String.eqb "pathway_results" key) eqn:E3;
    [apply String.eqb_eq in E3; subst key; reflexivity|].
  destruct (String.eqb "de_results" key) eqn:E4;
    [apply String.eqb_eq in E4; subst key; reflexivity|].
  destruct (String.eqb "gene_symbols" key) eqn:E5;
    [apply String.eqb_eq in E5; subst key; reflexivity|].
  destruct (String.eqb "clinical_data" key) eqn:E6;
    [apply String.eqb_eq in E6; subst key; reflexivity|].
  destruct (String.eqb "expression_data" key) eqn:E7;
    [apply String.eqb_eq in E7; subst key; reflexivity|].
  reflexivity.
Qed.

(** X16.  After "Reset All Data" the sidebar shows no completed step, that is
    0 percent, whatever the session held; the reset leaves every key
    outside its seven as it was; and a freshly initialised session also
    stands at 0 percent. *)
Theorem reset_all_progress (state : SessionState) :
  progress_items (reset_all state) = Some [false; false; false; false; false; false]
  /\ (exists pct, progress_pct (reset_all state) = Some pct /\ (pct == 0)%Q)
  /\ (forall key,
        ~ In key ["expression_data"; "clinical_data"; "gene_symbols"; "de_results";
                  "pathway_results"; "survival_results"; "literature_results"] ->
        lookup (reset_all state) key = lookup state key)
  /\ progress_items (initialize_session_state [])
     = Some [false; false; false; false; false; false].
Proof.
  assert (Hitems : progress_items (reset_all state)
                   = Some [false; false; false; false; false; false]).
  { unfold progress_items. rewrite !lookup_reset_all. reflexivity. }
  split; [exact Hitems|]. split; [|split].
  - unfold progress_pct. rewrite Hitems. eexists. split; reflexivity.
  - intros key Hnot. rewrite lookup_reset_all.
    destruct (existsb (String.eqb key) _) eqn:E.
    + exfalso. apply Hnot. apply existsb_exists in E. destruct E as [x [Hx Ex]].
      apply String.eqb_eq in Ex. subst x. simpl in Hx. simpl. tauto.
    + destruct (String.eqb key "gene_symbols") eqn:E'; [|reflexivity].
      exfalso. apply Hnot. apply String.eqb_eq in E'. subst key. simpl. tauto.
  - reflexivity.
Qed.

End SessionFacts.

Section ExampleDataFacts.

Import ExampleData.
Local Open Scope string_scope.

Variable name : nat -> string.
Variable generate : list string -> Session.value * Session.value.

(** X17.  The sample names cannot be built while [samples] is unbound, unless
    no sample is asked for; so the button of [load_example_data] always
    ends in that [NameError] and leaves the session as it was: no example
    data is ever loaded. *)
Theorem load_example_data_fails (state : Session.SessionState) (n_samples : nat) :
  (sample_names name n_samples None
   = if (n_samples =? 0)%nat then inr [] else inl (NameError "samples"))
  /\ load_example_data name generate state = (state, inl (NameError "samples")).
Proof.
  split.
  - unfold sample_names. destruct n_samples as [|n]; reflexivity.
  - reflexivity.
Qed.

End ExampleDataFacts.

Section LauncherFacts.

Import Launcher.
Local Open Scope string_scope.

Variable importable : string -> bool.
Variable pip_install : string -> bool.



End LauncherFacts.

Section WebTableExamples.

Import Pandas WebViews.
Local Open Scope string_scope.

Lemma analysis_table_rows_witness :
  match WebApp.analysis_section Samples.constant_test [] Samples.two_genes "shifted"
          (5 # 100) 1 "Median split" None None with
  | WebApp.AnalysisComplete de_results =>
      Forall (fun r => (0 <= WebApp.adj_p_value r <= 1)%Q) de_results
  | _ => False
  end.
Proof.
  destruct (WebApp.analysis_section Samples.constant_test [] Samples.two_genes "shifted"
              (5 # 100) 1 "Median split" None None) as [|e|de_results] eqn:Hrun.
  - discriminate Hrun.
  - discriminate Hrun.
  - eapply Forall_impl;
      [|exact (proj1 (analysis_table_rows Samples.constant_test _ _ _ _ _ _ _ _ _ Hrun))].
    intros r H. exact (proj1 H).
Defined.

Lemma heatmap_shows_most_significant_witness :
  match WebApp.analysis_section Samples.constant_test [] Samples.two_genes "shifted"
          (5 # 100) 1 "Median split" None None with
  | WebApp.AnalysisComplete de_results =>
      (List.length (firstn 1 (sig_genes de_results)) <= 1)%nat
  | _ => False
  end.
Proof.
  destruct (WebApp.analysis_section Samples.constant_test [] Samples.two_genes "shifted"
              (5 # 100) 1 "Median split" None None) as [|e|de_results] eqn:Hrun.
  - discriminate Hrun.
  - discriminate Hrun.
  - exact (proj1 (proj2 (proj2
      (heatmap_shows_most_significant Samples.constant_test _ _ _ _ _ _ _ _ _ 1%nat Hrun)))).
Defined.

Lemma summary_adds_up_witness :
  match WebApp.analysis_section Samples.constant_test [] Samples.two_genes "shifted"
          (5 # 100) 1 "Median split" None None with
  | WebApp.AnalysisComplete de_results =>
      (snd (fst (fst (summary de_results)))
       <= fst (fst (fst (summary de_results))))%nat
  | _ => False
  end.
Proof.
  destruct (WebApp.analysis_section Samples.constant_test [] Samples.two_genes "shifted"
              (5 # 100) 1 "Median split" None None) as [|e|de_results] eqn:Hrun.
  - discriminate Hrun.
  - discriminate Hrun.
  - destruct (summary de_results) as [[[total sig] up] down] eqn:Hs.
    exact (proj1 (proj2
      (summary_adds_up Samples.constant_test _ _ _ _ _ _ _ _ _ Hrun total sig up down Hs))).
Defined.

Lemma volcano_counts_witness :
  match WebApp.analysis_section Samples.constant_test [] Samples.two_genes "shifted"
          (5 # 100) 1 "Median split" None None with
  | WebApp.AnalysisComplete de_results =>
      (category_count (1 # 100) 2 "Upregulated" de_results
       + category_count (1 # 100) 2 "Downregulated" de_results
       + category_count (1 # 100) 2 "Not Significant" de_results
       = List.length de_results)%nat
  | _ => False
  end.
Proof.
  destruct (WebApp.analysis_section Samples.constant_test [] Samples.two_genes "shifted"
              (5 # 100) 1 "Median split" None None) as [|e|de_results] eqn:Hrun.
  - discriminate Hrun.
  - discriminate Hrun.
  - exact (proj1
      (volcano_counts Samples.constant_test _ _ _ _ _ _ _ _ _ (1 # 100)%Q 2%R Hrun)).
Defined.

Lemma heatmap_rows_centred_witness :
  match heatmap_data Samples.two_genes ["shifted"; "flat"] with
  | inr rows => map fst rows = ["shifted"; "flat"]
  | inl _ => False
  end.
Proof.
  destruct (heatmap_data Samples.two_genes ["shifted"; "flat"]) as [e|rows] eqn:Hrows.
  - discriminate Hrows.
  - exact (proj1 (proj1 (heatmap_rows_centred Samples.two_genes ["shifted"; "flat"])
                    rows Hrows)).
Defined.

End WebTableExamples.

Section StratifyExamples.

Import Pandas Stratify.
Local Open Scope string_scope.

Lemma constant_target_median_split_witness :
  group_samples module_globals Samples.with_constant_gene "constant" "Median split"
  = inr (["s1"; "s2"; "s3"; "s4"; "s5"; "s6"], []).
Proof.
  assert (Hne : Samples.six 10 10 10 10 10 10 <> []) by discriminate.
  assert (Hall : Forall (fun cell : string * Q => snd cell = 10%Q)
                   (Samples.six 10 10 10 10 10 10))
    by (repeat constructor).
  exact (proj1 (constant_target_median_split Samples.constant_test []
                  Samples.with_constant_gene "constant" (Samples.six 10 10 10 10 10 10)
                  10%Q (5 # 100)%Q 1%R eq_refl Hne Hall)).
Defined.

Lemma median_split_partition_witness :
  match group_samples module_globals Samples.four_samples "G" "Median split" with
  | inr (high, low) => (List.length high + List.length low = 4)%nat
  | inl _ => False
  end.
Proof.
  destruct (group_samples module_globals Samples.four_samples "G" "Median split")
    as [e|[high low]] eqn:Hg.
  - discriminate Hg.
  - assert (Hnd : NoDup ["s1"; "s2"; "s3"; "s4"]).
    { repeat constructor; simpl; intuition discriminate. }
    refine (proj2 (proj2
      (median_split_partition Samples.four_samples "G" high low
         [("s1", 1%Q); ("s2", 2%Q); ("s3", 3%Q); ("s4", 4%Q)] eq_refl Hnd Hg)) _).
    discriminate.
Defined.

Lemma quartile_split_disjoint_witness :
  match group_samples module_globals Samples.eight_samples "G"
          "Quartile split (top 25% vs bottom 25%)" with
  | inr (high, low) => (List.length high + List.length low <= 8)%nat
  | inl _ => False
  end.
Proof.
  destruct (group_samples module_globals Samples.eight_samples "G"
              "Quartile split (top 25% vs bottom 25%)") as [e|[high low]] eqn:Hg.
  - discriminate Hg.
  - assert (Hnd : NoDup ["s1"; "s2"; "s3"; "s4"; "s5"; "s6"; "s7"; "s8"]).
    { repeat constructor; simpl; intuition discriminate. }
    pose (row := [("s1", 1%Q); ("s2", 2%Q); ("s3", 3%Q); ("s4", 4%Q);
                  ("s5", 5%Q); ("s6", 6%Q); ("s7", 7%Q); ("s8", 8%Q)]).
    pose (q75 := match quantile (values row) (75 # 100) with Some q => q | None => 0%Q end).
    pose (q25 := match quantile (values row) (25 # 100) with Some q => q | None => 0%Q end).
    assert (Hlt : (q25 < q75)%Q) by (vm_compute; reflexivity).
    exact (proj2 (quartile_split_disjoint Samples.eight_samples "G" high low row q75 q25
                    eq_refl Hnd eq_refl eq_refl Hlt Hg)).
Defined.

Lemma design_groups_disjoint_witness :
  (List.length (samples_of Samples.low_high "High")
   + List.length (samples_of Samples.low_high "Low")
   <= List.length Samples.low_high)%nat.
Proof.
  assert (Hab : "High" <> "Low") by discriminate.
  assert (Hnd : NoDup (map fst Samples.low_high)).
  { repeat constructor; simpl; intuition discriminate. }
  exact (proj2 (design_groups_disjoint Samples.low_high "High" "Low" Hab Hnd)).
Defined.

Lemma create_expression_groups_samples_witness :
  match create_expression_groups [] Samples.two_genes "shifted" "Median split" with
  | inr design =>
      exists row, In row (map snd Samples.two_genes) /\ map fst design = map fst row
  | inl _ => False
  end.
Proof.
  destruct (create_expression_groups [] Samples.two_genes "shifted" "Median split")
    as [e|design] eqn:Hd.
  - discriminate Hd.
  - exact (create_expression_groups_samples [] Samples.two_genes "shifted" "Median split"
             design Hd).
Defined.

Lemma locate_gene_find_target_gene_witness :
  Resolver.locate_gene [("ENSG1", "TP53")] ["ENSG1.3"] "tp53" = inr "ENSG1.3".
Proof.
  assert (Hkeys : ~ In "" ["ENSG1.3"]) by (simpl; intuition discriminate).
  rewrite (locate_gene_find_target_gene [("ENSG1", "TP53")] ["ENSG1.3"] "tp53" Hkeys).
  reflexivity.
Defined.

Lemma web_engine_keeps_returning_witness :
  match Engine.run_differential_expression Samples.constant_test [] Samples.two_genes
          ["s4"; "s5"; "s6"] ["s1"; "s2"; "s3"] with
  | inr records =>
      exists r, In r records /\ Engine.gene_id r = "shifted"
                /\ Engine.p_value r = (1 # 2)%Q
  | inl _ => False
  end.
Proof.
  destruct (Engine.run_differential_expression Samples.constant_test [] Samples.two_genes
              ["s4"; "s5"; "s6"] ["s1"; "s2"; "s3"]) as [e|records] eqn:Hrun.
  - discriminate Hrun.
  - assert (H3 : (3 <= 3)%nat) by lia.
    exact (web_engine_keeps_returning Samples.constant_test [] Samples.two_genes "shifted"
             (Samples.six 0 1 3 7 15 31) ["s4"; "s5"; "s6"] ["s1"; "s2"; "s3"]
             [7%Q; 15%Q; 31%Q] [0%Q; 1%Q; 3%Q] records 0%R (1 # 2)%Q Hrun
             (or_intror (or_introl eq_refl)) eq_refl eq_refl H3 H3 eq_refl).
Defined.

End StratifyExamples.
